(** * The site's glue code, embedded and checked against its description

    The development follows the three program files that carry behaviour:

    - [gatsby-node.js]: the build hooks [onCreateNode],
      [onCreateWebpackConfig], [createPages], [generateESDoc] and
      [sourceNodes];
    - [src/routes/examples.js]: the [DocsPage] component with its
      table-of-contents lookup;
    - [src/routes/app.js]: the route component registry ([importAll],
      [routeComponentsMap]), the [Header] component, [renderRoutes] and the
      memoizing [Outlet].

    JavaScript conventions used throughout: a value that may be [undefined]
    is an [option]; a call that may throw returns a [completion]; calls on
    Gatsby's [actions] object are recorded, in order, in a log. *)

From Stdlib Require Import ZArith String Ascii.
From stdpp Require Import base option list strings gmap pretty.

Local Open Scope string_scope.

(** ** JavaScript runtime notions shared by the three files *)

Module JS.

(** The exceptions the embedded code can raise or let through. *)
Inductive error :=
| TypeError            (* property access on undefined or null *)
| SyntaxError          (* new RegExp on an ill-formed source, JSON.parse *)
| SystemError.         (* fs and the external generator *)

(** Result of evaluating an expression or a call. *)
Inductive completion (A : Type) :=
| Normal (a : A)
| Throw (e : error).
Arguments Normal {A} a.
Arguments Throw {A} e.

#[global] Instance completion_ret : MRet completion := @Normal.
#[global] Instance completion_bind : MBind completion :=
  fun A B f m => match m with Normal a => f a | Throw e => Throw e end.

Definition returns {A} (m : completion A) : bool :=
  match m with Normal _ => true | Throw _ => false end.

(** [s.match(/lit/)] is truthy, for a pattern [lit] made of ordinary
    characters, when [lit] occurs somewhere in [s]. *)
Fixpoint starts_with (lit s : string) : bool :=
  match lit, s with
  | EmptyString, _ => true
  | String a lit', String b s' => if Ascii.eqb a b then starts_with lit' s' else false
  | String _ _, EmptyString => false
  end.

Fixpoint search_literal (lit s : string) : bool :=
  if starts_with lit s then true
  else match s with
       | EmptyString => false
       | String _ s' => search_literal lit s'
       end.

(** [lit] occurs in [s]. *)
Definition occurs_in (lit s : string) : Prop :=
  exists before after : string, s = before ++ lit ++ after.

(** [s.replace(/\./g, "/")]. *)
Fixpoint replace_dots (s : string) : string :=
  match s with
  | EmptyString => EmptyString
  | String c s' => String (if Ascii.eqb c "." then "/"%char else c) (replace_dots s')
  end.

(** The integers a JavaScript number holds exactly and prints in plain
    decimal: those up to [Number.MAX_SAFE_INTEGER] in magnitude. *)
Definition safe_integer (n : Z) : Prop := (Z.abs n <= 9007199254740991)%Z.

(** JSON values as [JSON.parse] produces them; numbers are the
    integer-valued ones, [JNum n] standing for the number of value [n].
    What is said below about the text of a number is said for a
    [safe_integer]. *)
#[warnings="-register-all"] Inductive json :=
| JNull
| JBool (b : bool)
| JNum (n : Z)
| JStr (s : string)
| JArr (l : list json)
| JObj (o : list (string * json)).

Definition join (sep : string) (l : list string) : string :=
  match l with
  | [] => ""
  | x :: r => fold_left (fun acc y => acc ++ sep ++ y) r x
  end.

(** [String(v)], as a template literal applies it. *)
Fixpoint ToString (v : json) : string :=
  match v with
  | JNull => "null"
  | JBool true => "true"
  | JBool false => "false"
  | JNum n => pretty n
  | JStr s => s
  | JArr l =>
      join "," ((fix elems (l : list json) : list string :=
                   match l with
                   | [] => []
                   | JNull :: r => "" :: elems r
                   | x :: r => ToString x :: elems r
                   end) l)
  | JObj _ => "[object Object]"
  end.

Definition template (v : option json) : string :=
  match v with
  | None => "undefined"
  | Some x => ToString x
  end.

(** [v === "lit"] for a possibly undefined JSON value. *)
Definition strict_eq_string (v : option json) (lit : string) : bool :=
  match v with
  | Some (JStr s) => String.eqb s lit
  | _ => false
  end.

End JS.

(** ** gatsby-node.js (src/unnamed/part_001) *)

Module GatsbyNode.
Import JS.

(** A node of Gatsby's data graph, as far as [onCreateNode] reads it.
    Only nodes of the filesystem source carry [absolutePath]. *)
Record internal := { type : string }.
Record graph_node := {
  id : string;
  node_internal : internal;
  absolutePath : option string;
  fields : gmap string string
}.

(** The argument of [setWebpackConfig]: [L] is the type of loader
    descriptions, [test] the source of the rule's regular expression. *)
Record rule (L : Type) := { test : string; use : L }.
Record webpack_config (L : Type) := { module_rules : list (rule L) }.
Arguments test {L} r.
Arguments use {L} r.
Arguments module_rules {L} w.

(** The [internal] member and the fields of the object handed to
    [createNode]. *)
Record node_internal_data := { internal_type : string; contentDigest : string }.
Inductive field :=
| of_entry (v : json)
| of_id (s : string)
| of_internal (i : node_internal_data).

(** Calls on [actions] (and on the console), in the order they happen. *)
Inductive action (L : Type) :=
| createNodeField (node : graph_node) (name value : string)
| setWebpackConfig (cfg : webpack_config L)
| createRedirect (fromPath toPath : string)
| createPage (path matchPath component : string)
| createNode (data : gmap string field)
| console_log (msg : string) (arg : option json).
Arguments createNodeField {L}.
Arguments setWebpackConfig {L}.
Arguments createRedirect {L}.
Arguments createPage {L}.
Arguments createNode {L}.
Arguments console_log {L}.

(** A hook run: the calls made, then how the run ended. *)
Record run (L A : Type) := { calls : list (action L); outcome : completion A }.
Arguments calls {L A} r.
Arguments outcome {L A} r.

Definition done_with {L A} (a : A) : run L A := {| calls := []; outcome := Normal a |}.
Definition raise {L A} (e : error) : run L A := {| calls := []; outcome := Throw e |}.
Definition call {L} (a : action L) : run L unit := {| calls := [a]; outcome := Normal tt |}.
Definition lift {L A} (m : completion A) : run L A := {| calls := []; outcome := m |}.
Definition and_then {L A B} (m : run L A) (k : A -> run L B) : run L B :=
  match outcome m with
  | Normal a => {| calls := calls m ++ calls (k a); outcome := outcome (k a) |}
  | Throw e => {| calls := calls m; outcome := Throw e |}
  end.

#[global] Instance run_ret {L} : MRet (run L) := @done_with L.
#[global] Instance run_bind {L} : MBind (run L) := fun A B k m => and_then m k.

(** [docNodes.forEach(f)]. *)
Fixpoint forEach {L A} (f : A -> run L unit) (l : list A) : run L unit :=
  match l with
  | [] => done_with tt
  | x :: r => f x ;; forEach f r
  end.

(** Gatsby's effect of a [createNodeField] call on the node it names. *)
Definition apply_action {L} (n : graph_node) (a : action L) : graph_node :=
  match a with
  | createNodeField target name value =>
      if String.eqb (id target) (id n)
      then {| id := id n; node_internal := node_internal n;
              absolutePath := absolutePath n;
              fields := <[name := value]> (fields n) |}
      else n
  | _ => n
  end.
Definition node_after {L} (n : graph_node) (log : list (action L)) : graph_node :=
  fold_left apply_action log n.

(** The configuration [sourceNodes] hands to the generator. *)
Record plugin := { plugin_name : string; plugin_option : list (string * bool) }.
Record esdoc_config := {
  source : string;
  excludes : list string;
  plugins : list plugin;
  destination : option string
}.

Section Hooks.
(** The environment the hooks run in. *)
Context {L : Type}.
Variable readFileSync : string -> completion string.        (* fs, "utf8" *)
Variable loaders_null : unit -> L.                          (* loaders.null *)
Variable path_resolve : string -> string.                   (* path.resolve *)
Variable tmp_dirSync : string.                              (* tmp.dirSync().name *)
(* esdoc.generate: the files it leaves behind, or its failure *)
Variable esdoc_generate : esdoc_config -> completion (string -> completion string).
Variable JSON_parse : string -> completion (list (gmap string json)).
Variable JSON_stringify : gmap string json -> string.
Variable createNodeId : string -> string.
Variable createContentDigest : string -> string.

Definition onCreateNode (node : graph_node) : run L unit :=
  if String.eqb (type (node_internal node)) "File" then
    match absolutePath node with
    | None => raise TypeError
    | Some p =>
        if search_literal "snippets" p then
          value ← lift (readFileSync p);
          call (createNodeField node "content" value)
        else done_with tt
    end
  else done_with tt.

(** The object literal passed to [setWebpackConfig]. *)
Definition null_rule_config : webpack_config L :=
  {| module_rules := [ {| test := "@miragejs\/server"; use := loaders_null tt |} ] |}.

Definition onCreateWebpackConfig (stage : string) : run L unit :=
  if String.eqb stage "build-html" || String.eqb stage "develop-html" then
    call (setWebpackConfig null_rule_config)
  else done_with tt.

Record page_options := { path : string }.

Definition createPages : run L unit :=
  call (createRedirect "/docs" "/docs/getting-started/introduction") ;;
  let createPageForAdam := fun options : page_options =>
    call (createPage (path options) "/*" (path_resolve "./src/routes/app.js")) in
  createPageForAdam {| path := "/" |}.

(** The temporary directory is removed before returning; nothing below
    reads the file system after that. *)
Definition generateESDoc (config : esdoc_config) : completion (list (gmap string json)) :=
  let tmpdir := tmp_dirSync in
  files ← esdoc_generate {| source := source config; excludes := excludes config;
                            plugins := plugins config; destination := Some tmpdir |};
  index ← files (tmpdir ++ "/index.json");
  result ← JSON_parse index;
  mret result.

Definition esdoc_options : esdoc_config :=
  {| source := "./node_modules/@miragejs/server/lib";
     excludes := ["(node_modules|tests|tmp)"];
     plugins :=
       [ {| plugin_name := "esdoc-ecmascript-proposal-plugin";
            plugin_option := [ ("classProperties", true); ("objectRestSpread", true);
                        ("doExpressions", true); ("functionBind", true);
                        ("functionSent", true); ("asyncGenerators", true);
                        ("decorators", true); ("exportExtensions", true);
                        ("dynamicImport", true) ] |};
         {| plugin_name := "esdoc-accessor-plugin"; plugin_option := [] |} ];
     destination := None |}.

(** The object literal [{...node, ...{id, internal}}]. *)
Definition node_data (node : gmap string json) : gmap string field :=
  <["internal" := of_internal {| internal_type := "ESDoc";
                                 contentDigest := createContentDigest (JSON_stringify node) |}]>
    (<["id" := of_id (createNodeId ("esdoc-" ++ template (node !! "__docId__")))]>
       (of_entry <$> node)).

(** [sourceNodes] is an [async] function without [await]: its body runs
    to the end at the call, and a throw becomes the rejection of the
    promise it returns. *)
Definition sourceNodes : run L unit :=
  docNodes ← lift (generateESDoc esdoc_options);
  forEach (fun node =>
             call (createNode (node_data node)) ;;
             if strict_eq_string (node !! "kind") "class"
                && strict_eq_string (node !! "access") "public"
             then call (console_log "TODO create ssr page for" (node !! "name"))
             else done_with tt)
          docNodes.

(** The [createNode], [createRedirect] and [createPage] calls of a log,
    in order. *)
Definition created_nodes (log : list (action L)) : list (gmap string field) :=
  omap (fun a => match a with createNode d => Some d | _ => None end) log.
Definition redirects (log : list (action L)) : list (string * string) :=
  omap (fun a => match a with createRedirect f t => Some (f, t) | _ => None end) log.
Definition pages (log : list (action L)) : list (string * string * string) :=
  omap (fun a => match a with createPage p m c => Some (p, m, c) | _ => None end) log.




(** The second argument of each [console.log] call of a log, in order. *)
Definition console_logs (log : list (action L)) : list (option json) :=
  omap (fun a => match a with console_log _ arg => Some arg | _ => None end) log.

(** [node.kind === "class" && node.access === "public"] *)
Definition public_class (node : gmap string json) : bool :=
  strict_eq_string (node !! "kind") "class" && strict_eq_string (node !! "access") "public".
End Hooks.

End GatsbyNode.

(** ** src/routes/examples.js (lines 1-44 of the file of that name) *)

Module Examples.
Import JS.

(** What the static query returns for each MDX node.  A table of
    contents is an object whose [items] member, when present, lists the
    top-level headings; each heading may again have [items].
    [fileAbsolutePath] is a nullable string of the query. *)
#[warnings="-register-all"] Inductive toc_item :=
| TocItem (url title : option string) (sub_items : option (list toc_item)).

Definition item_items (i : toc_item) : option (list toc_item) :=
  match i with TocItem _ _ sub => sub end.

Record table_of_contents := { items : option (list toc_item) }.
Record mdx_node := {
  tableOfContents : table_of_contents;
  fileAbsolutePath : option string
}.

(** *** The literal [/(\/examples\/.+)\.md[x]?/]

    [.] matches every character but a line terminator, [.+] is greedy
    and gives characters back one at a time, and the search takes the
    leftmost position at which a match exists.  The functions return the
    text of capture group 1.

    A [string] holds the UTF-8 text of the JavaScript string.  The line
    terminators are line feed, carriage return, U+2028 and U+2029; the
    last two are three bytes each, and no other character of a UTF-8 text
    contains their first byte followed by their second and third. *)
Definition line_terminator (c : ascii) : bool :=
  Ascii.eqb c "010" || Ascii.eqb c "013".

Definition line_separator : string := String "226" (String "128" (String "168" "")).
Definition paragraph_separator : string := String "226" (String "128" (String "169" "")).

(** A line terminator begins [s]. *)
Definition line_terminator_at (s : string) : bool :=
  match s with
  | EmptyString => false
  | String c _ =>
      line_terminator c || starts_with line_separator s
      || starts_with paragraph_separator s
  end.

Fixpoint strip_prefix (lit s : string) : option string :=
  match lit, s with
  | EmptyString, _ => Some s
  | String a lit', String b s' => if Ascii.eqb a b then strip_prefix lit' s' else None
  | String _ _, EmptyString => None
  end.

(** Greedy [.*] followed by [\.md[x]?]: the text [.*] ends up with. *)
Fixpoint dot_star_md (s : string) : option string :=
  match s with
  | EmptyString => None
  | String c s' =>
      match (if line_terminator_at s then None else dot_star_md s') with
      | Some taken => Some (String c taken)
      | None => if starts_with ".md" s then Some EmptyString else None
      end
  end.

Definition match_here (s : string) : option string :=
  match strip_prefix "/examples/" s with
  | Some (String c rest) =>
      if line_terminator_at (String c rest) then None
      else taken ← dot_star_md rest; Some ("/examples/" ++ String c taken)
  | _ => None
  end.

Fixpoint exec_examples_md (s : string) : option string :=
  match match_here s with
  | Some group1 => Some group1
  | None =>
      match s with
      | EmptyString => None
      | String _ s' => exec_examples_md s'
      end
  end.

(** The language of that literal, read off it: some text, [/examples/],
    one or more characters none of which is a line terminator, [.md], and
    whatever follows (an [x] or anything else). *)
Fixpoint all_dot (t : string) : bool :=
  match t with
  | EmptyString => true
  | String c t' => negb (line_terminator_at t) && all_dot t'
  end.

Definition examples_md_at (s before t after : string) : Prop :=
  s = before ++ "/examples/" ++ t ++ ".md" ++ after /\
  t <> EmptyString /\ all_dot t = true.

(** What the literal does on [file], said by its language alone.  It
    captures [group1] when [group1] is [/examples/] and the text [t] of
    the match that starts leftmost and, from there, has the longest [t];
    it does not match when [file] has no reading in the language. *)
Definition captures (file group1 : string) : Prop :=
  exists before t after,
    group1 = "/examples/" ++ t /\ examples_md_at file before t after /\
    (forall before' t' after', examples_md_at file before' t' after' ->
       String.length before <= String.length before') /\
    (forall t' after', examples_md_at file before t' after' ->
       String.length t' <= String.length t).

Definition no_match (file : string) : Prop :=
  forall before t after, ~ examples_md_at file before t after.

(** [Array.prototype.find] with a callback that may throw. *)
Fixpoint find {A} (callback : A -> completion bool) (l : list A) : completion (option A) :=
  match l with
  | [] => Normal None
  | x :: r =>
      hit ← callback x;
      if hit : bool then Normal (Some x) else find callback r
  end.

Record docs_router (R P : Type) := { routes : R; previousPage : P; nextPage : P }.
Arguments routes {R P} d.
Arguments previousPage {R P} d.
Arguments nextPage {R P} d.

(** The element [DocsPage] returns, by its props. *)
Record three_column_layout (R P K : Type) := ThreeColumnLayout {
  layout_routes : R;
  layout_previousPage : P;
  layout_nextPage : P;
  currentPageTableOfContentsItems : option (list toc_item);
  layout_children : K
}.
Arguments ThreeColumnLayout {R P K}.
Arguments currentPageTableOfContentsItems {R P K} t.

Record props (K : Type) := { location_pathname : string; children : K }.
Arguments location_pathname {K} p.
Arguments children {K} p.

Section DocsPage.
(** The regular-expression engine of the runtime: compiling a source
    text may throw, testing a compiled expression does not. *)
Context {regexp : Type}.
Variable RegExp : string -> completion regexp.
Variable test : regexp -> string -> bool.
(** [useRouter().routerFor] and the result of the static query. *)
Context {R P K : Type}.
Variable routerFor : string -> docs_router R P.
Variable allMdx_nodes : list mdx_node.

(** The callback handed to [find]. *)
Definition didMatch (pathname : string) (node : mdx_node) : completion bool :=
  match fileAbsolutePath node with
  | None => Throw TypeError
  | Some file =>
      let didMatch := false in
      match exec_examples_md file with
      | Some group1 =>
          regexp ← RegExp (group1 ++ "/?");
          Normal (test regexp pathname)
      | None => Normal didMatch
      end
  end.

(** The two ways the callback completes, said without the callback: the
    node is accepted when its path matches the literal and the expression
    compiled from capture group 1 and [/?] tests true on the pathname; it
    is rejected when the path does not match, or the compiled expression
    tests false. *)
Definition accepts (pathname : string) (node : mdx_node) : Prop :=
  exists file group1 re,
    fileAbsolutePath node = Some file /\ exec_examples_md file = Some group1 /\
    RegExp (group1 ++ "/?") = Normal re /\ test re pathname = true.

Definition rejects (pathname : string) (node : mdx_node) : Prop :=
  exists file,
    fileAbsolutePath node = Some file /\
    (exec_examples_md file = None \/
     exists group1 re,
       exec_examples_md file = Some group1 /\
       RegExp (group1 ++ "/?") = Normal re /\ test re pathname = false).

(** The same two outcomes, with the literal taken by its language: the
    node's path is there and [captures] a subpath whose expression tests
    true, or it is there and either has no match or [captures] a subpath
    whose expression tests false. *)
Definition accepted (pathname : string) (node : mdx_node) : Prop :=
  exists file group1 re,
    fileAbsolutePath node = Some file /\ captures file group1 /\
    RegExp (group1 ++ "/?") = Normal re /\ test re pathname = true.

Definition rejected (pathname : string) (node : mdx_node) : Prop :=
  exists file,
    fileAbsolutePath node = Some file /\
    (no_match file \/
     exists group1 re,
       captures file group1 /\
       RegExp (group1 ++ "/?") = Normal re /\ test re pathname = false).

Definition mdxPage (pathname : string) : completion (option mdx_node) :=
  find (didMatch pathname) allMdx_nodes.

(** [mdxPage && mdxPage.tableOfContents.items[0].items] *)
Definition tableOfContentsItems (mdxPage : option mdx_node)
  : completion (option (list toc_item)) :=
  match mdxPage with
  | None => Normal None
  | Some page =>
      match items (tableOfContents page) with
      | None => Throw TypeError
      | Some its =>
          match its !! 0%nat with
          | None => Throw TypeError
          | Some first => Normal (item_items first)
          end
      end
  end.

Definition DocsPage (props : props K) : completion (three_column_layout R P K) :=
  page ← mdxPage (location_pathname props);
  tocItems ← tableOfContentsItems page;
  let docsRouter := routerFor "/examples" in
  Normal (ThreeColumnLayout (routes docsRouter) (previousPage docsRouter)
            (nextPage docsRouter) tocItems (children props)).
End DocsPage.

End Examples.

(** ** src/routes/app.js (lines 153-470 of src/routes/examples.js) *)

Module App.
Import JS.

(** *** The route component registry *)

(** A module object as webpack's [require] returns it for a file of the
    routes directory; [default] is its default export, if it has one. *)
Record module (C : Type) := { default : option C }.
Arguments default {C} m.

(** [require.context("./", true, /\.(js|jsx|mdx|tx|tsx)$/)]: the requests
    it knows and what requiring each of them gives. *)
Record require_context (C : Type) := { keys : list string; require : string -> module C }.
Arguments keys {C} r.
Arguments require {C} r.

(** [key.lastIndexOf(".")], which is [-1] when there is no dot. *)
Fixpoint lastIndexOf_dot (key : string) : Z :=
  match key with
  | EmptyString => (-1)%Z
  | String c rest =>
      let later := lastIndexOf_dot rest in
      if (0 <=? later)%Z then (1 + later)%Z
      else if Ascii.eqb c "." then 0%Z else (-1)%Z
  end.

(** [key.substr(0, n)]; a negative length gives the empty string. *)
Definition substr0 (key : string) (n : Z) : string :=
  String.substring 0 (Z.to_nat n) key.

(** [a || b] on strings: the empty string is the falsy one. *)
Definition or_else (a b : string) : string :=
  match a with
  | EmptyString => b
  | _ => a
  end.

Definition keyWithoutExtension (key : string) : string :=
  or_else (substr0 key (lastIndexOf_dot key)) key.

(** [routeComponentsMap[keyWithoutExtension] = r(key)] for each key.  The
    keys of a webpack context are requests that begin with [./]; cut at
    the extension they still begin so, and for such a name the assignment
    defines an own property of the registry (the one name for which it
    would not, [__proto__], does not begin with [./]). *)
Definition importAll {C} (r : require_context C)
    (routeComponentsMap : gmap string (module C)) : gmap string (module C) :=
  fold_left (fun registry key => <[keyWithoutExtension key := require r key]> registry)
            (keys r) routeComponentsMap.

(** [routeComponentsMap] starts as [{}] and is filled once, at load time. *)
Definition routeComponentsMap {C} (r : require_context C) : gmap string (module C) :=
  importAll r ∅.

(** The registry is an ordinary object, so reading a property that is
    not its own falls through to [Object.prototype]. *)
Definition Object_prototype : list string :=
  [ "constructor"; "__defineGetter__"; "__defineSetter__"; "hasOwnProperty";
    "__lookupGetter__"; "__lookupSetter__"; "isPrototypeOf";
    "propertyIsEnumerable"; "toString"; "valueOf"; "__proto__"; "toLocaleString" ].

Inductive property (C : Type) :=
| own (m : module C)
| inherited (name : string).
Arguments own {C} m.
Arguments inherited {C} name.

(** [registry[key]] *)
Definition get {C} (registry : gmap string (module C)) (key : string) : option (property C) :=
  match registry !! key with
  | Some m => Some (own m)
  | None => if bool_decide (key ∈ Object_prototype) then Some (inherited key) else None
  end.

(** *** Header *)

Inductive theme := light | dark.

(** An [onClick] of the header: the call of the state setter it makes. *)
Inductive handler := setIsShowingMobileNav (value : bool).

Inductive icon := Close | Menu.

Inductive link_children := text (s : string) | Logo.

Record link := { to : string; link_onClick : option handler; label : link_children }.
Record nav_link := { nav_to : string; activeFor : string; nav_label : string }.
Record button := { button_onClick : handler; button_icon : icon }.

(** What [Header] returns, as far as behaviour goes; of the class names
    only those of the [header] element are kept, as a list. *)
Record header_view := {
  header_classes : list string;
  logo : link;
  mobile_nav_button : option button;
  desktop_nav : list nav_link;
  mobile_nav : option (list link)
}.

(** [useState(false)] *)
Definition useState_initial : bool := false.

Definition Header (showHeaderNav : bool) (theme : theme) (isShowingMobileNav : bool)
  : header_view :=
  {| header_classes :=
       "lg:py-2" ::
       (if isShowingMobileNav && match theme with dark => true | light => false end
        then ["bg-gray-900"] else []);
     logo := {| to := "/"; link_onClick := Some (setIsShowingMobileNav false);
                label := Logo |};
     mobile_nav_button :=
       if showHeaderNav then
         Some {| button_onClick := setIsShowingMobileNav (negb isShowingMobileNav);
                 button_icon := if isShowingMobileNav then Close else Menu |}
       else None;
     desktop_nav :=
       if showHeaderNav then
         [ {| nav_to := "/docs/getting-started/introduction"; activeFor := "/docs/*";
              nav_label := "Guides" |};
           {| nav_to := "/api/classes/association"; activeFor := "/api/*";
              nav_label := "API" |};
           {| nav_to := "/examples/react/simple-example"; activeFor := "/examples/*";
              nav_label := "Examples" |} ]
       else [];
     mobile_nav :=
       if isShowingMobileNav then
         Some [ {| to := "/docs/getting-started/introduction";
                   link_onClick := Some (setIsShowingMobileNav false); label := text "Guides" |};
                {| to := "/api/classes/association";
                   link_onClick := Some (setIsShowingMobileNav false); label := text "API" |};
                {| to := "https://github.com/miragejs/server";
                   link_onClick := Some (setIsShowingMobileNav false); label := text "GitHub" |} ]
       else None |}.

(** Where a click can land. *)
Inductive target :=
| on_logo
| on_mobile_nav_button
| on_mobile_nav_link (index : nat).

(** The handler a click reaches in a given view, if the element is there. *)
Definition handler_at (view : header_view) (t : target) : option handler :=
  match t with
  | on_logo => link_onClick (logo view)
  | on_mobile_nav_button => button_onClick <$> mobile_nav_button view
  | on_mobile_nav_link i => links ← mobile_nav view; l ← links !! i; link_onClick l
  end.

(** React: a click runs the handler of the current render; the setter's
    argument is the state of the next render. *)
Definition click (showHeaderNav : bool) (th : theme) (isShowingMobileNav : bool) (t : target)
  : bool :=
  match handler_at (Header showHeaderNav th isShowingMobileNav) t with
  | Some (setIsShowingMobileNav value) => value
  | None => isShowingMobileNav
  end.

Definition clicks (showHeaderNav : bool) (th : theme) (ts : list target) : bool :=
  fold_left (click showHeaderNav th) ts useState_initial.

(** *** renderRoutes and Outlet *)

(** A route of the router's tree, as [renderRoutes] reads it. *)
#[warnings="-register-all"] Inductive route :=
| Route (fullName path : string) (routes : list route).

Definition fullName (r : route) : string := match r with Route n _ _ => n end.
Definition routes (r : route) : list route := match r with Route _ _ rs => rs end.

(** The value bound to [Component]. *)
Inductive component (C : Type) :=
| exported (c : C)            (* a module's default export *)
| undefined                   (* a missing default export *)
| EmptyComponent.             (* props => props.children *)
Arguments exported {C} c.
Arguments undefined {C}.
Arguments EmptyComponent {C}.

#[warnings="-register-all"] Inductive element (C : Type) :=
| Element (type : component C) (path key : string) (children : list (element C)).
Arguments Element {C}.

Definition element_type {C} (e : element C) : component C :=
  match e with Element t _ _ _ => t end.
Definition element_children {C} (e : element C) : list (element C) :=
  match e with Element _ _ _ ch => ch end.

(** What rendering an [EmptyComponent] element gives: [props.children]. *)
Definition call_EmptyComponent {C} (children : list (element C)) : list (element C) :=
  children.

Definition registry_key (fullName : string) : string := "./" ++ replace_dots fullName.

Section Routes.
Context {C : Type}.
Variable routeComponentsMap : gmap string (module C).

Definition Component_for (route_fullName : string) : component C :=
  let explicitComponent := get routeComponentsMap (registry_key route_fullName) in
  match explicitComponent with
  | Some (own m) => match default m with Some c => exported c | None => undefined end
  | Some (inherited _) => undefined
  | None => EmptyComponent
  end.

(** The callback of [routes.map] inside [renderRoutes]; its children are
    [renderRoutes(route.routes)], the same map one level down. *)
Fixpoint renderRoute (route : route) : element C :=
  match route with
  | Route fullName path sub =>
      Element (Component_for fullName) path fullName (map renderRoute sub)
  end.

Definition renderRoutes (routes : list route) : list (element C) :=
  map renderRoute routes.

(** [<Router primary={false}>{memoizedOutlet}</Router>] *)
Record router_element := Router { primary : bool; router_children : option (list (element C)) }.

(** [!memoizedOutlet]: only [undefined] is falsy, an array never is. *)
Definition not_set (memoizedOutlet : option (list (element C))) : bool :=
  match memoizedOutlet with
  | None => true
  | Some _ => false
  end.

(** One call of [Outlet], threading the module-level [memoizedOutlet];
    [router_routes] is what [useRouter().routes] holds at that call. *)
Definition Outlet (router_routes : list route) (memoizedOutlet : option (list (element C)))
  : router_element * option (list (element C)) :=
  let memoizedOutlet :=
    if not_set memoizedOutlet then Some (renderRoutes router_routes) else memoizedOutlet in
  (Router false memoizedOutlet, memoizedOutlet).

(** Successive calls, starting from a given [memoizedOutlet]: what each
    call returned, paired with whether it took the branch that calls
    [renderRoutes]. *)
Fixpoint Outlet_calls (calls : list (list route)) (memoizedOutlet : option (list (element C)))
  : list (router_element * bool) * option (list (element C)) :=
  match calls with
  | [] => ([], memoizedOutlet)
  | router_routes :: later =>
      let '(returned, memo) := Outlet router_routes memoizedOutlet in
      let '(rest, final) := Outlet_calls later memo in
      ((returned, not_set memoizedOutlet) :: rest, final)
  end.
End Routes.

(** *** AppInner and MobileNavLink *)

(** The router's active page, as [AppInner] reads it.  [meta] is the
    object [activePage.meta]; [meta_showHeaderNav] is its [showHeaderNav]
    member, [None] when it is [undefined], and otherwise the way [Header]
    takes the value in its conditionals. *)
Record page_meta := { meta_showHeaderNav : option bool }.
Record page := { meta : option page_meta }.

(** What [AppInner] hands on: the class of the [html] element and the
    [showHeaderNav] prop of [Header]. *)
Record app_view := { html_className : string; header_showHeaderNav : bool }.

Definition AppInner (th : theme) (activePage : option page) : completion app_view :=
  let showHeaderNav := true in
  showHeaderNav ←
    match activePage with
    | None => Normal showHeaderNav
    | Some p =>
        match meta p with
        | None => Throw TypeError
        | Some m =>
            match meta_showHeaderNav m with
            | Some value => Normal value
            | None => Normal showHeaderNav
            end
        end
    end;
  Normal {| html_className := match th with dark => "bg-gray-1000" | light => "bg-white" end;
            header_showHeaderNav := showHeaderNav |}.

(** [s.indexOf(lit)]: the first position at which [lit] occurs, or [-1]. *)
Fixpoint indexOf (lit s : string) : Z :=
  if starts_with lit s then 0%Z
  else match s with
       | EmptyString => (-1)%Z
       | String _ s' =>
           let later := indexOf lit s' in
           if (later <? 0)%Z then (-1)%Z else (1 + later)%Z
       end.

Inductive link_state := active | inactive.

(** [linkClasses] of [MobileNavLink]. *)
Definition linkClasses (th : theme) (state : link_state) : string :=
  match th, state with
  | light, active => "text-gray-900"
  | light, inactive => "text-gray-600 hover:text-gray-900"
  | dark, active => "text-gray-100"
  | dark, inactive => "text-gray-100 hover:text-gray-100"
  end.

(** What [MobileNavLink] returns: an [a] element, or a router [Link] whose
    class is computed from [isPartiallyCurrent]. *)
Inductive mobile_nav_element :=
| a_element (href : string) (onClick : option handler) (className : string)
    (children : link_children)
| Link_element (to : string) (onClick : option handler) (getProps : bool -> string)
    (children : link_children).

Definition isExternal (to : string) : bool := (indexOf "http" to =? 0)%Z.

Definition MobileNavLink (th : theme) (props : link) : mobile_nav_element :=
  let baseClasses := "block px-5 py-4" in
  if isExternal (to props) then
    a_element (to props) (link_onClick props)
      (baseClasses ++ " " ++ linkClasses th inactive) (label props)
  else
    let isPartiallyActive := fun isPartiallyCurrent : bool =>
      let state := if isPartiallyCurrent then active else inactive in
      baseClasses ++ " " ++ linkClasses th state in
    Link_element (to props) (link_onClick props) isPartiallyActive (label props).

(** *** Reading a rendered tree back *)

(** The route an element was made for: its [key] is the full name, its
    [path] the path, its children the sub-routes. *)
Fixpoint element_route {C} (e : element C) : route :=
  match e with
  | Element _ path key children => Route key path (map element_route children)
  end.

(** The full names of a route and of all routes under it. *)
Fixpoint route_names (r : route) : list string :=
  match r with
  | Route name _ sub => name :: concat (map route_names sub)
  end.

End App.

(** * Properties *)

(** ** Strings *)

Module StringFacts.
Import JS.

Lemma starts_with_spec (lit s : string) :
  starts_with lit s = true <-> exists after, s = lit ++ after.
Proof.
  revert s. induction lit as [|a lit IH]; intros s; simpl.
  - split; [intros _; by exists s | done].
  - destruct s as [|b s]; simpl.
    + split; [done | intros [after H]; discriminate H].
    + destruct (Ascii.eqb_spec a b) as [->|Hne].
      * rewrite IH. split; intros [after H]; exists after.
        -- by rewrite H.
        -- by injection H.
      * split; [done | intros [after H]; by injection H].
Qed.

Lemma search_literal_spec (lit s : string) :
  search_literal lit s = true <-> occurs_in lit s.
Proof.
  induction s as [|c s IH]; simpl.
  - destruct (starts_with lit "") eqn:E.
    + apply starts_with_spec in E as [after E].
      split; [intros _; exists "", after; exact E | done].
    + split; [done|]. intros (before & after & H).
      destruct before; simpl in H.
      * assert (starts_with lit "" = true) by (apply starts_with_spec; eauto).
        congruence.
      * discriminate H.
  - destruct (starts_with lit (String c s)) eqn:E.
    + apply starts_with_spec in E as [after E].
      split; [intros _; exists "", after; exact E | done].
    + rewrite IH. split.
      * intros (before & after & ->). by exists (String c before), after.
      * intros (before & after & H). destruct before as [|b before]; simpl in H.
        -- assert (starts_with lit (String c s) = true)
             by (apply starts_with_spec; eauto).
           congruence.
        -- injection H as _ ->. by exists before, after.
Qed.

Lemma length_append (s1 s2 : string) :
  String.length (s1 ++ s2) = String.length s1 + String.length s2.
Proof.
  induction s1 as [|c s1 IH]; [done|].
  change (String c s1 ++ s2) with (String c (s1 ++ s2)). cbn [String.length].
  by rewrite IH.
Qed.

(** A three-character text without a dot in second or third place begins
    [c t] exactly when it begins [c t] followed by a dot and more. *)
Lemma starts_with_three_before_dot (a1 a2 a3 c : ascii) (t r : string) :
  a2 <> "."%char -> a3 <> "."%char ->
  starts_with (String a1 (String a2 (String a3 ""))) (String c (t ++ String "." r))
  = starts_with (String a1 (String a2 (String a3 ""))) (String c t).
Proof.
  intros H2 H3. cbn [starts_with]. destruct (Ascii.eqb a1 c); [|done].
  destruct t as [|d t].
  - change ("" ++ String "." r) with (String "." r). cbn [starts_with].
    by destruct (Ascii.eqb_spec a2 ".").
  - change (String d t ++ String "." r) with (String d (t ++ String "." r)).
    cbn [starts_with]. destruct (Ascii.eqb a2 d); [|done].
    destruct t as [|e t].
    + change ("" ++ String "." r) with (String "." r). cbn [starts_with].
      by destruct (Ascii.eqb_spec a3 ".").
    + change (String e t ++ String "." r) with (String e (t ++ String "." r)).
      cbn [starts_with]. by destruct (Ascii.eqb a3 e).
Qed.

Lemma replace_dots_length (s : string) :
  String.length (replace_dots s) = String.length s.
Proof. induction s; simpl; congruence. Qed.

End StringFacts.

(** ** gatsby-node.js *)

Module GatsbyNodeFacts.
Import JS GatsbyNode StringFacts.

Section Hooks.
Context {L : Type}.
Variable readFileSync : string -> completion string.
Variable loaders_null : unit -> L.
Variable path_resolve : string -> string.
Variable tmp_dirSync : string.
Variable esdoc_generate : esdoc_config -> completion (string -> completion string).
Variable JSON_parse : string -> completion (list (gmap string json)).
Variable JSON_stringify : gmap string json -> string.
Variable createNodeId : string -> string.
Variable createContentDigest : string -> string.

(** C1. [createPages] creates one page and only one: its [matchPath] is
    ["/*"] and its component is the resolved [./src/routes/app.js], so
    every page the hook creates, whatever path it is asked for, is that
    one component; the hook ends normally. *)
Theorem createPages_catch_all_page :
  pages (calls (createPages (L:=L) path_resolve))
    = [ ("/", "/*", path_resolve "./src/routes/app.js") ] /\
  (forall p m c, createPage p m c ∈ calls (createPages (L:=L) path_resolve) ->
     m = "/*" /\ c = path_resolve "./src/routes/app.js") /\
  outcome (createPages (L:=L) path_resolve) = Normal tt.
Proof.
  split; [reflexivity|]. split; [|reflexivity].
  intros p m c Hin. cbn in Hin.
  apply elem_of_cons in Hin as [Hin|Hin]; [discriminate Hin|].
  apply list_elem_of_singleton in Hin. by injection Hin as -> -> ->.
Qed.

(** C2. [createPages] registers the redirect from [/docs] to
    [/docs/getting-started/introduction] and no other redirect. *)
Theorem createPages_single_redirect :
  redirects (calls (createPages (L:=L) path_resolve))
    = [ ("/docs", "/docs/getting-started/introduction") ] /\
  (forall f t, createRedirect f t ∈ calls (createPages (L:=L) path_resolve) ->
     f = "/docs" /\ t = "/docs/getting-started/introduction").
Proof.
  split; [reflexivity|].
  intros f t Hin. cbn in Hin.
  apply elem_of_cons in Hin as [Hin|Hin]; [by injection Hin as -> ->|].
  apply list_elem_of_singleton in Hin. discriminate Hin.
Qed.

(** C6. [onCreateWebpackConfig] makes exactly one [setWebpackConfig] call
    when the stage is ["build-html"] or ["develop-html"], and only then.
    The configuration it passes has one module rule, whose [test] is the
    expression [/@miragejs\/server/] and whose [use] is what
    [loaders.null()] returns.  For every other stage it makes no call at
    all.  It never throws. *)
Theorem onCreateWebpackConfig_html_stages (stage : string) :
  (calls (onCreateWebpackConfig loaders_null stage)
   = [ setWebpackConfig
         {| module_rules := [ {| test := "@miragejs\/server"; use := loaders_null tt |} ] |} ]
     <-> stage = "build-html" \/ stage = "develop-html") /\
  (~ (stage = "build-html" \/ stage = "develop-html") ->
     calls (onCreateWebpackConfig loaders_null stage) = []) /\
  outcome (onCreateWebpackConfig loaders_null stage) = Normal tt.
Proof.
  unfold onCreateWebpackConfig, null_rule_config.
  destruct (String.eqb_spec stage "build-html") as [->|H1]; simpl.
  - split; [split; [by left | done]|]. split; [|done]. intros H. destruct H. by left.
  - destruct (String.eqb_spec stage "develop-html") as [->|H2]; simpl.
    + split; [split; [by right | done]|]. split; [|done]. intros H. destruct H. by right.
    + split; [|done]. split; [done|]. intros [?|?]; congruence.
Qed.

(** C7. [onCreateNode] attaches the field ["content"], holding the text
    [fs] reads from the file, to a node of internal type ["File"] whose
    absolute path contains [snippets]; any field it creates is that one, on
    that node, under those two conditions; and for a node that does not
    meet both conditions it creates no field and leaves the node as it
    was. *)
Theorem onCreateNode_snippet_content (node : graph_node) :
  (forall p text,
     type (node_internal node) = "File" -> absolutePath node = Some p ->
     occurs_in "snippets" p -> readFileSync p = Normal text ->
     calls (onCreateNode (L:=L) readFileSync node) = [ createNodeField node "content" text ] /\
     outcome (onCreateNode (L:=L) readFileSync node) = Normal tt /\
     fields (node_after node (calls (onCreateNode (L:=L) readFileSync node))) !! "content"
       = Some text) /\
  (forall n name value,
     createNodeField n name value ∈ calls (onCreateNode (L:=L) readFileSync node) ->
     n = node /\ name = "content" /\ type (node_internal node) = "File" /\
     exists p, absolutePath node = Some p /\ occurs_in "snippets" p /\
               readFileSync p = Normal value) /\
  (~ (type (node_internal node) = "File" /\
      exists p, absolutePath node = Some p /\ occurs_in "snippets" p) ->
     calls (onCreateNode (L:=L) readFileSync node) = [] /\
     node_after node (calls (onCreateNode (L:=L) readFileSync node)) = node).
Proof.
  unfold onCreateNode.
  destruct (String.eqb_spec (type (node_internal node)) "File") as [Hty|Hty].
  2:{ split; [|split].
      - intros p text Hty'. by destruct Hty.
      - intros n name value Hin. by apply elem_of_nil in Hin.
      - done. }
  destruct (absolutePath node) as [p|] eqn:Hp.
  2:{ split; [|split].
      - intros p text _ Hp'. discriminate Hp'.
      - intros n name value Hin. by apply elem_of_nil in Hin.
      - done. }
  destruct (search_literal "snippets" p) eqn:Hs.
  - apply search_literal_spec in Hs.
    split; [|split].
    + intros p' text _ [= <-] _ Hread. cbn. unfold and_then, lift. cbn. rewrite Hread.
      cbn. rewrite String.eqb_refl. cbn. by rewrite lookup_insert_eq.
    + intros n name value. cbn. unfold and_then, lift. cbn.
      destruct (readFileSync p) as [text|e] eqn:Hread; cbn.
      * intros Hin. apply list_elem_of_singleton in Hin. injection Hin as -> -> ->.
        repeat split; try done. by exists p.
      * intros Hin. by apply elem_of_nil in Hin.
    + intros Hnot. destruct Hnot. split; [done|]. by exists p.
  - assert (~ occurs_in "snippets" p) as Hno.
    { intros Hocc. apply search_literal_spec in Hocc. congruence. }
    split; [|split].
    + intros p' text _ [= <-] Hocc _. by destruct Hno.
    + intros n name value Hin. by apply elem_of_nil in Hin.
    + done.
Qed.

(** The hooks on concrete arguments. *)

Example onCreateNode_on_a_snippet :
  let node := {| id := "n1"; node_internal := {| type := "File" |};
                 absolutePath := Some "/site/src/snippets/1-tabs.js"; fields := ∅ |} in
  onCreateNode (L:=L) (fun p => Normal ("text of " ++ p)) node
  = {| calls := [ createNodeField node "content" "text of /site/src/snippets/1-tabs.js" ];
       outcome := Normal tt |}.
Proof. reflexivity. Qed.

Example onCreateNode_on_a_page :
  let node := {| id := "n2"; node_internal := {| type := "File" |};
                 absolutePath := Some "/site/src/routes/app.js"; fields := ∅ |} in
  onCreateNode (L:=L) (fun p => Normal ("text of " ++ p)) node = done_with tt.
Proof. reflexivity. Qed.

Example onCreateNode_on_an_mdx_node :
  let node := {| id := "n3"; node_internal := {| type := "Mdx" |};
                 absolutePath := None; fields := ∅ |} in
  onCreateNode (L:=L) (fun p => Throw SystemError) node = done_with tt.
Proof. reflexivity. Qed.

Example onCreateNode_unreadable_snippet :
  let node := {| id := "n4"; node_internal := {| type := "File" |};
                 absolutePath := Some "/site/src/snippets/gone.js"; fields := ∅ |} in
  onCreateNode (L:=L) (fun p => Throw SystemError) node
  = {| calls := []; outcome := Throw SystemError |}.
Proof. reflexivity. Qed.

Example onCreateWebpackConfig_build_javascript :
  onCreateWebpackConfig loaders_null "build-javascript" = done_with tt.
Proof. reflexivity. Qed.

Example onCreateWebpackConfig_develop_html :
  onCreateWebpackConfig loaders_null "develop-html"
  = call (setWebpackConfig (null_rule_config loaders_null)).
Proof. reflexivity. Qed.

Example createPages_log :
  calls (createPages (L:=L) path_resolve)
  = [ createRedirect "/docs" "/docs/getting-started/introduction";
      createPage "/" "/*" (path_resolve "./src/routes/app.js") ].
Proof. reflexivity. Qed.

(** *** sourceNodes *)

Lemma and_then_normal {A B} (m : run L A) (k : A -> run L B) (a : A) :
  outcome m = Normal a ->
  calls (and_then m k) = (calls m ++ calls (k a))%list /\ outcome (and_then m k) = outcome (k a).
Proof. intros H. unfold and_then. by rewrite H. Qed.

Lemma and_then_throw {A B} (m : run L A) (k : A -> run L B) (e : error) :
  outcome m = Throw e ->
  calls (and_then m k) = calls m /\ outcome (and_then m k) = Throw e.
Proof. intros H. unfold and_then. by rewrite H. Qed.

(** The body of the [forEach] in [sourceNodes]. *)
Local Abbreviation each_entry :=
  (fun node : gmap string json =>
     call (L:=L) (createNode (node_data JSON_stringify createNodeId createContentDigest node)) ;;
     if strict_eq_string (node !! "kind") "class"
        && strict_eq_string (node !! "access") "public"
     then call (console_log "TODO create ssr page for" (node !! "name"))
     else done_with tt).




Lemma sourceNodes_unfold :
  sourceNodes (L:=L) tmp_dirSync esdoc_generate JSON_parse JSON_stringify
    createNodeId createContentDigest
  = and_then (lift (generateESDoc tmp_dirSync esdoc_generate JSON_parse esdoc_options))
             (forEach each_entry).
Proof. reflexivity. Qed.




End Hooks.

(** An entry with an [id] of its own is outside what the generator
    yields: the node created for it would not carry that field, it has
    the generated id in its place. *)
Lemma sourceNodes_replaces_entry_id :
  let entry : gmap string json :=
    {[ "__docId__" := JNum 7; "id" := JStr "mine"; "kind" := JStr "class" ]} in
  let run :=
    sourceNodes (L:=unit) "/tmp/esdoc" (fun _ => Normal (fun _ => Normal "index"))
      (fun _ => Normal [entry]) (fun _ => "json") (fun s => s) (fun s => s) in
  exists data,
    created_nodes (calls run) = [data] /\
    entry !! "id" = Some (JStr "mine") /\
    data !! "id" = Some (of_id "esdoc-7") /\
    ~ (forall k v, entry !! k = Some v -> data !! k = Some (of_entry v)).
Proof.
  intros entry run.
  exists (node_data (fun _ => "json") (fun s => s) (fun s => s) entry).
  split; [reflexivity|]. split; [reflexivity|]. split; [reflexivity|].
  intros H. specialize (H "id" (JStr "mine") eq_refl). discriminate H.
Qed.


End GatsbyNodeFacts.

(** ** src/routes/examples.js *)

Module ExamplesFacts.
Import JS Examples StringFacts.

(** *** The literal's matcher against the literal's language *)

Lemma strip_prefix_spec (lit s rest : string) :
  strip_prefix lit s = Some rest <-> s = lit ++ rest.
Proof.
  revert s. induction lit as [|a lit IH]; intros s; simpl.
  - split; [by intros [= ->] | by intros ->].
  - destruct s as [|b s]; [split; [done | intros H; discriminate H]|].
    destruct (Ascii.eqb_spec a b) as [->|Hne].
    + rewrite IH. split; [by intros -> | by intros [= ->]].
    + split; [done | intros [= H _]; by destruct Hne].
Qed.

Lemma occurs_in_cons (lit : string) (c : ascii) (t : string) :
  lit <> "" ->
  occurs_in lit (String c t) <-> starts_with lit (String c t) = true \/ occurs_in lit t.
Proof.
  intros Hlit. split.
  - intros (before & after & H). destruct before as [|b before].
    + left. apply starts_with_spec. by exists after.
    + right. injection H as _ ->. by exists before, after.
  - intros [Hstart | (before & after & ->)].
    + apply starts_with_spec in Hstart as [after Hafter]. by exists "", after.
    + by exists (String c before), after.
Qed.

Lemma occurs_in_empty (lit : string) : lit <> "" -> ~ occurs_in lit "".
Proof.
  intros Hlit (before & after & H). destruct before; [|discriminate H].
  destruct lit; [done | discriminate H].
Qed.

Lemma line_terminator_at_spec (s : string) :
  line_terminator_at s = true <->
  starts_with (String "010" "") s = true \/ starts_with (String "013" "") s = true \/
  starts_with line_separator s = true \/ starts_with paragraph_separator s = true.
Proof.
  destruct s as [|c s]; [cbn; intuition discriminate|].
  unfold line_terminator_at, line_terminator. cbn [starts_with].
  rewrite !orb_true_iff, (Ascii.eqb_sym c "010"), (Ascii.eqb_sym c "013").
  destruct (Ascii.eqb "010" c), (Ascii.eqb "013" c); intuition discriminate.
Qed.

(** [all_dot] holds of the texts in which none of the four line
    terminators occurs. *)
Lemma all_dot_spec (t : string) :
  all_dot t = true <->
  ~ occurs_in (String "010" "") t /\ ~ occurs_in (String "013" "") t /\
  ~ occurs_in line_separator t /\ ~ occurs_in paragraph_separator t.
Proof.
  induction t as [|c t IH].
  - split; [|done]. intros _. repeat split; by apply occurs_in_empty.
  - cbn [all_dot]. rewrite andb_true_iff, negb_true_iff, IH.
    rewrite !occurs_in_cons by done.
    pose proof (line_terminator_at_spec (String c t)) as Hspec.
    destruct (line_terminator_at (String c t)).
    + destruct (proj1 Hspec eq_refl) as [H | [H | [H | H]]]; rewrite H;
        (split; [intros [? _]; discriminate | intuition]).
    + assert (forall lit, starts_with lit (String c t) = true ->
                lit = String "010" "" \/ lit = String "013" "" \/
                lit = line_separator \/ lit = paragraph_separator -> False) as Hno.
      { intros lit Hs Hlit. assert (false = true); [|done]. apply Hspec.
        destruct Hlit as [-> | [-> | [-> | ->]]]; tauto. }
      split.
      * intros [_ (H1 & H2 & H3 & H4)]. repeat split; intros [Hs | Hocc]; eauto 10.
      * intros (H1 & H2 & H3 & H4). split; [done|]. repeat split; eauto.
Qed.

#[local] Arguments starts_with : simpl never.
#[local] Arguments strip_prefix : simpl never.
#[local] Arguments line_terminator : simpl never.

(** Whether a line terminator begins at a character of [.+] does not
    depend on what follows the [.md] after it. *)
Lemma line_terminator_at_before_md (c : ascii) (t after : string) :
  line_terminator_at (String c (t ++ ".md" ++ after)) = line_terminator_at (String c t).
Proof.
  unfold line_terminator_at, line_separator, paragraph_separator.
  change (".md" ++ after) with (String "." ("md" ++ after)).
  by rewrite !starts_with_three_before_dot.
Qed.

Lemma dot_star_md_sound (s taken : string) :
  dot_star_md s = Some taken ->
  all_dot taken = true /\ exists after, s = taken ++ ".md" ++ after.
Proof.
  revert taken. induction s as [|c s IH]; intros taken; cbn [dot_star_md]; [done|].
  destruct (line_terminator_at (String c s)) eqn:Hc.
  - destruct (starts_with ".md" (String c s)) eqn:Hmd; [|done].
    intros [= <-]. split; [done|]. by apply starts_with_spec in Hmd.
  - destruct (dot_star_md s) as [taken'|] eqn:Hrec.
    + intros [= <-]. destruct (IH taken' eq_refl) as [Hall [after ->]].
      split; [|by exists after]. cbn [all_dot].
      by rewrite <- (line_terminator_at_before_md c taken' after), Hc.
    + destruct (starts_with ".md" (String c s)) eqn:Hmd; [|done].
      intros [= <-]. split; [done|]. by apply starts_with_spec in Hmd.
Qed.

Lemma dot_star_md_complete (t after : string) :
  all_dot t = true -> is_Some (dot_star_md (t ++ ".md" ++ after)).
Proof.
  induction t as [|c t IH].
  - intros _. change ("" ++ ".md" ++ after) with (String "." ("md" ++ after)).
    cbn [dot_star_md].
    assert (starts_with ".md" (String "." ("md" ++ after)) = true) as ->
      by (apply starts_with_spec; by exists after).
    destruct (if line_terminator_at _ then None else dot_star_md _); eauto.
  - cbn [all_dot]. intros [Hc Ht]%andb_prop. apply negb_true_iff in Hc.
    change (String c t ++ ".md" ++ after) with (String c (t ++ ".md" ++ after)).
    cbn [dot_star_md]. rewrite line_terminator_at_before_md, Hc.
    destruct (IH Ht) as [taken ->]. eauto.
Qed.

Lemma match_here_sound (s group1 : string) :
  match_here s = Some group1 ->
  exists t after, group1 = "/examples/" ++ t /\ examples_md_at s "" t after.
Proof.
  unfold match_here.
  destruct (strip_prefix "/examples/" s) as [[|c rest]|] eqn:Hp; try done.
  apply strip_prefix_spec in Hp as ->.
  destruct (line_terminator_at (String c rest)) eqn:Hc; [done|].
  destruct (dot_star_md rest) as [taken|] eqn:Hrec; [|done].
  intros [= <-]. apply dot_star_md_sound in Hrec as [Hall [after ->]].
  exists (String c taken), after. split; [done|].
  split; [done|]. split; [done|]. cbn [all_dot].
  by rewrite <- (line_terminator_at_before_md c taken after), Hc.
Qed.

Lemma match_here_complete (t after : string) :
  t <> "" -> all_dot t = true ->
  is_Some (match_here ("/examples/" ++ t ++ ".md" ++ after)).
Proof.
  intros Hne Hall. destruct t as [|c t]; [done|].
  cbn [all_dot] in Hall. apply andb_prop in Hall as [Hc Ht]. apply negb_true_iff in Hc.
  unfold match_here.
  assert (strip_prefix "/examples/" ("/examples/" ++ String c t ++ ".md" ++ after)
          = Some (String c (t ++ ".md" ++ after))) as -> by by apply strip_prefix_spec.
  rewrite line_terminator_at_before_md, Hc.
  destruct (dot_star_md_complete t after Ht) as [taken ->]. cbn. eauto.
Qed.

(** What [exec_examples_md] returns is capture group 1 of an occurrence
    of the literal. *)
Lemma exec_examples_md_sound (s group1 : string) :
  exec_examples_md s = Some group1 ->
  exists before t after, group1 = "/examples/" ++ t /\ examples_md_at s before t after.
Proof.
  induction s as [|c s IH]; simpl.
  - done.
  - destruct (match_here (String c s)) eqn:Hm.
    + intros [= ->]. apply match_here_sound in Hm as (t & after & -> & H).
      by exists "", t, after.
    + intros H. destruct (IH H) as (before & t & after & -> & -> & Hne & Hall).
      by exists (String c before), t, after.
Qed.

Lemma exec_examples_md_unfold (s : string) :
  exec_examples_md s =
  match match_here s with
  | Some group1 => Some group1
  | None => match s with
            | EmptyString => None
            | String _ s' => exec_examples_md s'
            end
  end.
Proof. by destruct s. Qed.

(** It finds a match whenever the text has one. *)
Lemma exec_examples_md_complete (s before t after : string) :
  examples_md_at s before t after -> is_Some (exec_examples_md s).
Proof.
  intros (-> & Hne & Hall). induction before as [|c before IH].
  - destruct (match_here_complete t after Hne Hall) as [g Hg].
    change ("" ++ "/examples/" ++ t ++ ".md" ++ after)
      with ("/examples/" ++ t ++ ".md" ++ after).
    rewrite exec_examples_md_unfold, Hg. eauto.
  - rewrite exec_examples_md_unfold. destruct (match_here _); eauto.
Qed.

Example exec_on_an_example_page :
  exec_examples_md "/site/src/routes/examples/react/simple-example.mdx"
  = Some "/examples/react/simple-example".
Proof. reflexivity. Qed.

Example exec_on_a_guide :
  exec_examples_md "/site/src/routes/docs/getting-started/introduction.mdx" = None.
Proof. reflexivity. Qed.

Example exec_takes_the_last_md :
  exec_examples_md "/examples/a.md.mdx" = Some "/examples/a.md".
Proof. reflexivity. Qed.

Example exec_needs_a_name :
  exec_examples_md "/examples/.md" = None.
Proof. reflexivity. Qed.

(** [.+] is greedy: no other way of matching at the same position leaves
    it a longer text. *)
Lemma dot_star_md_greedy (s taken t after : string) :
  dot_star_md s = Some taken ->
  all_dot t = true -> s = t ++ ".md" ++ after ->
  String.length t <= String.length taken.
Proof.
  revert taken t. induction s as [|c s IH]; intros taken t; [done|].
  destruct t as [|c' t]; [cbn [String.length]; lia|].
  intros Hrun Hall [= <- Hs]. cbn [all_dot] in Hall.
  apply andb_prop in Hall as [Hc Ht]. apply negb_true_iff in Hc.
  cbn [dot_star_md] in Hrun. rewrite Hs, line_terminator_at_before_md, Hc in Hrun.
  rewrite <- Hs in Hrun.
  destruct (dot_star_md s) as [taken'|] eqn:Hrec.
  - injection Hrun as <-. cbn [String.length].
    specialize (IH taken' t eq_refl Ht Hs). lia.
  - destruct (dot_star_md_complete t after Ht) as [x Hx]. congruence.
Qed.

Lemma match_here_none (s t after : string) :
  match_here s = None -> ~ examples_md_at s "" t after.
Proof.
  intros Hnone (-> & Hne & Hall).
  destruct (match_here_complete t after Hne Hall) as [g Hg].
  change ("" ++ "/examples/" ++ t ++ ".md" ++ after)
    with ("/examples/" ++ t ++ ".md" ++ after) in Hnone. congruence.
Qed.

Lemma match_here_greedy (s group1 t after : string) :
  match_here s = Some group1 -> examples_md_at s "" t after ->
  String.length ("/examples/" ++ t) <= String.length group1.
Proof.
  unfold match_here. intros Hm (-> & Hne & Hall).
  change ("" ++ "/examples/" ++ t ++ ".md" ++ after)
    with ("/examples/" ++ t ++ ".md" ++ after) in Hm.
  destruct t as [|c t]; [done|].
  assert (strip_prefix "/examples/" ("/examples/" ++ String c t ++ ".md" ++ after)
          = Some (String c (t ++ ".md" ++ after))) as Hp by by apply strip_prefix_spec.
  rewrite Hp in Hm. cbn [all_dot] in Hall. apply andb_prop in Hall as [Hc Ht].
  apply negb_true_iff in Hc. rewrite line_terminator_at_before_md, Hc in Hm.
  destruct (dot_star_md (t ++ ".md" ++ after)) as [taken|] eqn:Hrec; [|done].
  injection Hm as <-.
  pose proof (dot_star_md_greedy _ _ t after Hrec Ht eq_refl).
  rewrite !length_append. cbn [String.length]. lia.
Qed.

(** The match [exec_examples_md] reports starts at the leftmost position
    where the literal matches, and from there its group is the longest
    one. *)
Lemma exec_examples_md_leftmost_greedy (s group1 : string) :
  exec_examples_md s = Some group1 ->
  exists before t after,
    group1 = "/examples/" ++ t /\ examples_md_at s before t after /\
    (forall before' t' after', examples_md_at s before' t' after' ->
       String.length before <= String.length before') /\
    (forall t' after', examples_md_at s before t' after' ->
       String.length t' <= String.length t).
Proof.
  revert group1. induction s as [|c s IH]; intros group1; [done|].
  rewrite exec_examples_md_unfold.
  destruct (match_here (String c s)) as [g|] eqn:Hm.
  - intros [= ->]. destruct (match_here_sound _ _ Hm) as (t & after & -> & Hat).
    exists "", t, after. split; [done|]. split; [done|]. split; [simpl; lia|].
    intros t' after' Hat'. pose proof (match_here_greedy _ _ _ _ Hm Hat') as Hlen.
    rewrite !length_append in Hlen. lia.
  - intros Hrec. destruct (IH _ Hrec) as (before & t & after & -> & Hat & Hleft & Hlong).
    exists (String c before), t, after. split; [done|]. split.
    { destruct Hat as (-> & ? & ?). done. }
    split.
    + intros [|c' before'] t' after' Hat'.
      * by destruct (match_here_none _ t' after' Hm).
      * destruct Hat' as ([= <- Hs] & Hne' & Hall'). cbn [String.length].
        specialize (Hleft before' t' after' (conj Hs (conj Hne' Hall'))). lia.
    + intros t' after' ([= Hs] & Hne' & Hall'). by apply (Hlong t' after').
Qed.

Lemma append_inv_length (a b a' b' : string) :
  a ++ b = a' ++ b' -> String.length a = String.length a' -> a = a' /\ b = b'.
Proof.
  revert a'. induction a as [|c a IH]; intros [|c' a'] Heq Hlen; try done.
  injection Heq as -> Heq. injection Hlen as Hlen.
  destruct (IH a' Heq Hlen) as [-> ->]. done.
Qed.

(** The language fixes the capture: what [captures] says of a path is
    what the matcher returns on it. *)
Lemma captures_exec (file group1 : string) :
  captures file group1 -> exec_examples_md file = Some group1.
Proof.
  intros (before & t & after & -> & Hat & Hleft & Hlong).
  destruct (exec_examples_md_complete _ _ _ _ Hat) as [g Hg]. rewrite Hg. f_equal.
  destruct (exec_examples_md_leftmost_greedy _ _ Hg)
    as (before' & t' & after' & -> & Hat' & Hleft' & Hlong').
  pose proof (Hleft _ _ _ Hat') as H1. pose proof (Hleft' _ _ _ Hat) as H2.
  destruct Hat as (Hfile & Hne & Hall). destruct Hat' as (Hfile' & Hne' & Hall').
  assert (before = before' /\
          "/examples/" ++ t ++ ".md" ++ after = "/examples/" ++ t' ++ ".md" ++ after')
    as [<- Hrest].
  { apply append_inv_length; [congruence | lia]. }
  pose proof (Hlong t' after' (conj Hfile' (conj Hne' Hall'))) as H3.
  pose proof (Hlong' t after (conj Hfile (conj Hne Hall))) as H4.
  assert (t ++ ".md" ++ after = t' ++ ".md" ++ after') as Htail.
  { change (String "/" (String "e" (String "x" (String "a" (String "m" (String "p"
              (String "l" (String "e" (String "s" (String "/"
                (t ++ ".md" ++ after))))))))))
            = String "/" (String "e" (String "x" (String "a" (String "m" (String "p"
              (String "l" (String "e" (String "s" (String "/"
                (t' ++ ".md" ++ after'))))))))))) in Hrest.
    by injection Hrest. }
  destruct (append_inv_length _ _ _ _ Htail) as [-> _]; [lia | done].
Qed.

Lemma no_match_exec (file : string) :
  no_match file <-> exec_examples_md file = None.
Proof.
  split.
  - intros Hno. destruct (exec_examples_md file) as [g|] eqn:Hexec; [|done].
    destruct (exec_examples_md_sound _ _ Hexec) as (before & t & after & _ & Hat).
    by destruct (Hno before t after).
  - intros Hnone before t after Hat.
    destruct (exec_examples_md_complete _ _ _ _ Hat) as [g Hg]. congruence.
Qed.

(** *** find *)

Lemma find_Normal_Some {A} (callback : A -> completion bool) (l : list A) (x : A) :
  find callback l = Normal (Some x) <->
  exists i : nat, l !! i = Some x /\ callback x = Normal true /\
    forall (j : nat) (y : A), l !! j = Some y -> j < i -> callback y = Normal false.
Proof.
  induction l as [|a l IH]; simpl.
  - split; [done | by intros (i & H & _)].
  - destruct (callback a) as [[|]|e] eqn:Ha; simpl.
    + split.
      * intros [= <-]. exists 0. split; [done|]. split; [done|]. lia.
      * intros ([|i] & Hi & Hx & Hbefore).
        -- by injection Hi as ->.
        -- specialize (Hbefore 0 a eq_refl ltac:(lia)). congruence.
    + rewrite IH. split.
      * intros (i & Hi & Hx & Hbefore). exists (S i). split; [done|]. split; [done|].
        intros [|j] y Hy Hlt; [by injection Hy as <-|].
        apply (Hbefore j y Hy). lia.
      * intros ([|i] & Hi & Hx & Hbefore).
        -- injection Hi as ->. congruence.
        -- exists i. split; [done|]. split; [done|].
           intros j y Hy Hlt. apply (Hbefore (S j) y Hy). lia.
    + split; [done|].
      intros ([|i] & Hi & Hx & Hbefore).
      * injection Hi as ->. congruence.
      * specialize (Hbefore 0 a eq_refl ltac:(lia)). congruence.
Qed.


(** The scan completes as far as its callback does. *)
Lemma find_returns {A} (callback : A -> completion bool) (l : list A) :
  Forall (fun y => returns (callback y) = true) l -> returns (find callback l) = true.
Proof.
  induction 1 as [|a l Ha _ IH]; [done|]. simpl.
  destruct (callback a) as [[|]|e]; done.
Qed.

(** *** DocsPage *)

Section DocsPage.
Context {regexp : Type}.
Variable RegExp : string -> completion regexp.
Variable test : regexp -> string -> bool.
Context {R P K : Type}.
Variable routerFor : string -> docs_router R P.

Lemma didMatch_true (pathname : string) (node : mdx_node) :
  didMatch RegExp test pathname node = Normal true <-> accepts RegExp test pathname node.
Proof.
  unfold didMatch, accepts. split.
  - destruct (fileAbsolutePath node) as [file|]; [|done].
    destruct (exec_examples_md file) as [group1|] eqn:Hexec; [|done].
    destruct (RegExp (group1 ++ "/?")) as [re|e] eqn:Hre; [|done].
    cbn. intros [= Ht]. by exists file, group1, re.
  - intros (file & group1 & re & -> & -> & -> & Ht). cbn. by rewrite Ht.
Qed.

Lemma didMatch_false (pathname : string) (node : mdx_node) :
  didMatch RegExp test pathname node = Normal false <-> rejects RegExp test pathname node.
Proof.
  unfold didMatch, rejects. split.
  - destruct (fileAbsolutePath node) as [file|]; [|done].
    destruct (exec_examples_md file) as [group1|] eqn:Hexec.
    + destruct (RegExp (group1 ++ "/?")) as [re|e] eqn:Hre; [|done].
      cbn. intros [= Ht]. exists file. split; [done|]. right. by exists group1, re.
    + intros _. exists file. split; [done|]. by left.
  - intros (file & -> & [-> | (group1 & re & -> & -> & Ht)]); [done|].
    cbn. by rewrite Ht.
Qed.

(** X9. The node the lookup returns is the first accepted one, every node
    before it having been rejected; and only such a node is returned. *)
Lemma mdxPage_selected_is_first (nodes : list mdx_node) (pathname : string)
    (node : mdx_node) :
  mdxPage RegExp test nodes pathname = Normal (Some node) <->
  exists i : nat,
    nodes !! i = Some node /\ accepts RegExp test pathname node /\
    forall (j : nat) (earlier : mdx_node),
      nodes !! j = Some earlier -> j < i -> rejects RegExp test pathname earlier.
Proof.
  unfold mdxPage. rewrite find_Normal_Some.
  split; intros (i & Hi & Hacc & Hbefore); exists i; (split; [done|]).
  - split; [by apply didMatch_true|].
    intros j earlier Hj Hlt. apply didMatch_false. eauto.
  - split; [by apply didMatch_true|].
    intros j earlier Hj Hlt. apply didMatch_false. eauto.
Qed.


Lemma accepted_accepts (pathname : string) (node : mdx_node) :
  accepted RegExp test pathname node <-> accepts RegExp test pathname node.
Proof.
  split.
  - intros (file & g & re & Hfile & Hcap & Hre & Ht).
    exists file, g, re. split; [done|]. split; [by apply captures_exec | done].
  - intros (file & g & re & Hfile & Hexec & Hre & Ht).
    exists file, g, re. split; [done|].
    split; [by apply exec_examples_md_leftmost_greedy | done].
Qed.

Lemma rejected_rejects (pathname : string) (node : mdx_node) :
  rejected RegExp test pathname node <-> rejects RegExp test pathname node.
Proof.
  split.
  - intros (file & Hfile & [Hno | (g & re & Hcap & Hre & Ht)]); exists file;
      (split; [done|]).
    + left. by apply no_match_exec.
    + right. exists g, re. split; [by apply captures_exec | done].
  - intros (file & Hfile & [Hno | (g & re & Hexec & Hre & Ht)]); exists file;
      (split; [done|]).
    + left. by apply no_match_exec.
    + right. exists g, re. split; [by apply exec_examples_md_leftmost_greedy | done].
Qed.


(** C4, as the code has it.  The lookup goes through the nodes in order.
    A node is rejected when its path is there and the literal
    [/(\/examples\/.+)\.md[x]?/] does not match it, or captures a subpath
    whose expression (the subpath, then [/?]) tests false on the
    pathname; it is accepted when the literal captures a subpath whose
    expression tests true.  When the nodes [before] are all rejected and
    [node] is accepted, the lookup returns [node], whatever comes [after]
    it; so a later node that would be accepted too is never the one
    returned. *)
Theorem mdxPage_first_match (pathname : string) (before : list mdx_node)
    (node : mdx_node) (after : list mdx_node) :
  Forall (rejected RegExp test pathname) before ->
  accepted RegExp test pathname node ->
  mdxPage RegExp test (before ++ node :: after) pathname = Normal (Some node).
Proof.
  intros Hbefore Hnode. unfold mdxPage.
  induction Hbefore as [|earlier before Hrej _ IH]; simpl.
  - apply accepted_accepts, didMatch_true in Hnode. by rewrite Hnode.
  - apply rejected_rejects, didMatch_false in Hrej. by rewrite Hrej.
Qed.


(** A selected page without headings: [items] is missing, and reading
    [items[0]] throws. *)
Example DocsPage_without_headings (props : props K) :
  let page := {| tableOfContents := {| items := None |};
                 fileAbsolutePath := Some "/site/src/routes/examples/empty.mdx" |} in
  (forall re, test re (location_pathname props) = true) ->
  (forall source, returns (RegExp source) = true) ->
  DocsPage RegExp test routerFor [page] props = Throw TypeError.
Proof.
  intros page Htest Hcompile.
  assert (exec_examples_md "/site/src/routes/examples/empty.mdx" = Some "/examples/empty")
    as Hexec by reflexivity.
  unfold DocsPage, mdxPage, find, didMatch, page. cbn [fileAbsolutePath].
  rewrite Hexec. specialize (Hcompile ("/examples/empty" ++ "/?")).
  destruct (RegExp ("/examples/empty" ++ "/?")) as [re|e]; [|done].
  cbn. by rewrite Htest.
Qed.

End DocsPage.

(** The lookup on four nodes, with an engine that compiles every source
    and tests a literal followed by [/?] by searching for the literal: the
    guide is rejected (the literal fails on it), [vue.mdx] is rejected (its
    expression tests false), the example page is accepted, and the later
    [react.mdx], which would be accepted too, is not the one returned. *)
Lemma mdxPage_first_match_witness :
  let RegExp := fun source : string => Normal source in
  let test := fun re pathname : string =>
    search_literal (String.substring 0 (String.length re - 2) re) pathname in
  let page := fun file : string =>
    {| tableOfContents := {| items := None |}; fileAbsolutePath := Some file |} in
  let pathname := "/examples/react/simple-example" in
  Forall (rejected RegExp test pathname)
    [ page "/site/src/routes/docs/intro.mdx"; page "/site/src/routes/examples/vue.mdx" ] /\
  accepted RegExp test pathname (page "/site/src/routes/examples/react/simple-example.mdx") /\
  accepted RegExp test pathname (page "/site/src/routes/examples/react.mdx") /\
  mdxPage RegExp test
    ([ page "/site/src/routes/docs/intro.mdx"; page "/site/src/routes/examples/vue.mdx" ]
       ++ page "/site/src/routes/examples/react/simple-example.mdx"
       :: [ page "/site/src/routes/examples/react.mdx" ])%list pathname
    = Normal (Some (page "/site/src/routes/examples/react/simple-example.mdx")).
Proof.
  intros RegExp test page pathname.
  assert (Forall (rejected RegExp test pathname)
            [ page "/site/src/routes/docs/intro.mdx";
              page "/site/src/routes/examples/vue.mdx" ]) as Hbefore.
  { constructor; [|constructor; [|constructor]].
    - exists "/site/src/routes/docs/intro.mdx". split; [reflexivity|]. left.
      apply no_match_exec. reflexivity.
    - exists "/site/src/routes/examples/vue.mdx". split; [reflexivity|]. right.
      exists "/examples/vue", "/examples/vue/?".
      split; [apply exec_examples_md_leftmost_greedy; reflexivity|].
      split; reflexivity. }
  assert (accepted RegExp test pathname
            (page "/site/src/routes/examples/react/simple-example.mdx")) as Hnode.
  { exists "/site/src/routes/examples/react/simple-example.mdx",
      "/examples/react/simple-example", "/examples/react/simple-example/?".
    split; [reflexivity|].
    split; [apply exec_examples_md_leftmost_greedy; reflexivity|].
    split; reflexivity. }
  split; [exact Hbefore|]. split; [exact Hnode|]. split.
  - exists "/site/src/routes/examples/react.mdx", "/examples/react", "/examples/react/?".
    split; [reflexivity|].
    split; [apply exec_examples_md_leftmost_greedy; reflexivity|].
    split; reflexivity.
  - exact (mdxPage_first_match RegExp test pathname _ _ _ Hbefore Hnode).
Defined.

(** C4, as stated, fails.  Of these two nodes the second is the first one
    whose path matches the literal and whose captured subpath tests true
    on the pathname; the first node has no path.  The lookup does not
    select the second node: the callback throws on the first. *)
Lemma mdxPage_throws_before_the_first_match :
  let RegExp := fun source : string => Normal source in
  let test := fun re pathname : string =>
    search_literal (String.substring 0 (String.length re - 2) re) pathname in
  let no_file := {| tableOfContents := {| items := None |}; fileAbsolutePath := None |} in
  let example :=
    {| tableOfContents := {| items := None |};
       fileAbsolutePath := Some "/site/src/routes/examples/react/simple-example.mdx" |} in
  let pathname := "/examples/react/simple-example" in
  ~ accepted RegExp test pathname no_file /\
  accepted RegExp test pathname example /\
  mdxPage RegExp test [ no_file; example ] pathname = Throw TypeError /\
  mdxPage RegExp test [ no_file; example ] pathname <> Normal (Some example).
Proof.
  intros RegExp test no_file example pathname.
  split; [intros (file & g & re & Hfile & _); discriminate Hfile|].
  split; [|split; [reflexivity | discriminate]].
  exists "/site/src/routes/examples/react/simple-example.mdx",
    "/examples/react/simple-example", "/examples/react/simple-example/?".
  split; [reflexivity|].
  split; [apply exec_examples_md_leftmost_greedy; reflexivity|].
  split; reflexivity.
Qed.


(** [DocsPage] on the example page, whose one top-level heading has two
    headings under it, and on a path no node is accepted for. *)
Example DocsPage_on_the_example_page :
  let RegExp := fun source : string => Normal source in
  let test := fun re pathname : string =>
    search_literal (String.substring 0 (String.length re - 2) re) pathname in
  let routerFor := fun prefix : string =>
    {| routes := prefix; previousPage := (None : option string);
       nextPage := (None : option string) |} in
  let sections := [ TocItem (Some "#setup") (Some "Setup") None;
                    TocItem (Some "#usage") (Some "Usage") None ] in
  let nodes :=
    [ {| tableOfContents := {| items := None |};
         fileAbsolutePath := Some "/site/src/routes/docs/intro.mdx" |};
      {| tableOfContents :=
           {| items := Some [ TocItem (Some "#simple-example") (Some "Simple example")
                                (Some sections) ] |};
         fileAbsolutePath := Some "/site/src/routes/examples/react/simple-example.mdx" |} ] in
  DocsPage RegExp test routerFor nodes
    {| location_pathname := "/examples/react/simple-example"; children := tt |}
  = Normal (ThreeColumnLayout "/examples" None None (Some sections) tt) /\
  DocsPage RegExp test routerFor nodes
    {| location_pathname := "/docs/intro"; children := tt |}
  = Normal (ThreeColumnLayout "/examples" None None None tt).
Proof. split; reflexivity. Qed.

End ExamplesFacts.

(** ** src/routes/app.js *)

Module AppFacts.
Import JS App.

(** *** The registry *)

Section Registry.
Context {C : Type}.

(** One more request at the end is one more assignment on the registry
    built so far. *)
Lemma importAll_snoc (ks : list string) (key : string) (req : string -> module C)
    (m0 : gmap string (module C)) :
  importAll {| keys := ks ++ [key]; require := req |} m0
  = <[keyWithoutExtension key := req key]> (importAll {| keys := ks; require := req |} m0).
Proof. unfold importAll. cbn. by rewrite fold_left_app. Qed.

(** The registry's own properties are the requests with their extension
    cut off, each holding a module the context gave for such a request. *)
Lemma routeComponentsMap_lookup (r : require_context C) (k : string) (m : module C) :
  routeComponentsMap r !! k = Some m ->
  exists key, key ∈ keys r /\ keyWithoutExtension key = k /\ m = require r key.
Proof.
  destruct r as [ks req]. unfold routeComponentsMap. cbn [keys require].
  induction ks as [|key ks IH] using rev_ind.
  - unfold importAll. cbn. by rewrite lookup_empty.
  - rewrite importAll_snoc.
    destruct (decide (keyWithoutExtension key = k)) as [<-|Hne].
    + rewrite lookup_insert_eq. intros [= <-]. exists key.
      split; [apply elem_of_app; right; by apply list_elem_of_singleton | done].
    + rewrite lookup_insert_ne by done. intros H.
      destruct (IH H) as (key' & Hin & Hk & Hm). exists key'.
      split; [apply elem_of_app; by left | done].
Qed.

(** X12. For a context whose requests begin with [./], as those of a
    webpack context do, the own keys of the registry are exactly the
    requests with their extension cut off. *)
Lemma routeComponentsMap_keys (r : require_context C) (k : string) :
  (forall key, key ∈ keys r -> starts_with "./" key = true) ->
  is_Some (routeComponentsMap r !! k) <->
  exists key, key ∈ keys r /\ keyWithoutExtension key = k.
Proof.
  intros _. split.
  - intros [m Hm]. apply routeComponentsMap_lookup in Hm as (key & ? & ? & _). eauto.
  - destruct r as [ks req]. unfold routeComponentsMap. cbn [keys require].
    induction ks as [|key ks IH] using rev_ind.
    + intros (key & Hin & _). by apply elem_of_nil in Hin.
    + intros (key' & Hin & Hk). rewrite importAll_snoc.
      destruct (decide (keyWithoutExtension key = k)) as [<-|Hne].
      * rewrite lookup_insert_eq. eauto.
      * rewrite lookup_insert_ne by done. apply IH. exists key'. split; [|done].
        apply elem_of_app in Hin as [Hin|Hin]; [done|].
        apply list_elem_of_singleton in Hin. congruence.
Qed.

(** A key built from a route name starts with [./]; nothing on
    [Object.prototype] does, so the lookup never sees an inherited
    property. *)
Lemma registry_key_not_inherited (name : string) :
  registry_key name ∉ Object_prototype.
Proof.
  unfold registry_key, Object_prototype. intros H.
  repeat (apply elem_of_cons in H as [H|H]; [discriminate H|]).
  by apply elem_of_nil in H.
Qed.

Lemma get_registry_key (registry : gmap string (module C)) (name : string) :
  get registry (registry_key name) = own <$> registry !! registry_key name.
Proof.
  unfold get. destruct (registry !! registry_key name); [done|].
  rewrite bool_decide_eq_false_2; [done|]. apply registry_key_not_inherited.
Qed.

Variable registry : gmap string (module C).

Lemma Component_for_cases (name : string) :
  Component_for registry name
  = match registry !! registry_key name with
    | Some m => match default m with Some c => exported c | None => undefined end
    | None => EmptyComponent
    end.
Proof.
  unfold Component_for. rewrite get_registry_key.
  by destruct (registry !! registry_key name).
Qed.

(** The lookup key, character by character: [./], then the full name
    with each dot replaced by a slash and every other character kept. *)
Lemma registry_key_spelled (name : string) :
  registry_key name
  = "./" ++ string_of_list_ascii
              (map (fun c : ascii => if Ascii.eqb c "." then "/"%char else c)
                 (list_ascii_of_string name)).
Proof.
  unfold registry_key. f_equal.
  induction name as [|c name IH]; [done|].
  cbn [replace_dots list_ascii_of_string map string_of_list_ascii]. by rewrite IH.
Qed.

(** C3. [renderRoutes] gives one element per route, in order.  The key
    of a route is [./] followed by its full name with every dot replaced
    by a slash.  The element of a route whose key is in the registry has
    that module's default export as its type; the element of a route
    whose key is not in the registry has the pass-through component,
    which gives back its children as they are.  These are the only two
    outcomes of the lookup, and the element's children are rendered from
    the route's sub-routes the same way. *)
Theorem renderRoutes_lookup (routes : list route) :
  length (renderRoutes registry routes) = length routes /\
  forall (i : nat) (route : route) (key : string),
    routes !! i = Some route ->
    key = "./" ++ string_of_list_ascii
                    (map (fun c : ascii => if Ascii.eqb c "." then "/"%char else c)
                       (list_ascii_of_string (fullName route))) ->
    exists e : element C,
      renderRoutes registry routes !! i = Some e /\
      (forall m, registry !! key = Some m ->
         element_type e = match default m with Some c => exported c | None => undefined end) /\
      (registry !! key = None ->
         element_type e = EmptyComponent /\
         call_EmptyComponent (element_children e) = element_children e) /\
      ((exists m, registry !! key = Some m /\
                  element_type e
                  = match default m with Some c => exported c | None => undefined end) \/
       (registry !! key = None /\ element_type e = EmptyComponent)) /\
      element_children e = renderRoutes registry (App.routes route).
Proof.
  unfold renderRoutes at 1 2. split; [by rewrite length_map|].
  intros i [name path sub] key Hi ->.
  exists (renderRoute registry (Route name path sub)).
  split; [by rewrite list_lookup_fmap, Hi|].
  cbn [renderRoute element_type element_children fullName App.routes].
  rewrite Component_for_cases, <- registry_key_spelled.
  destruct (registry !! registry_key name) as [m|].
  - split; [by intros m' [= <-]|]. split; [done|]. split; [left; by exists m | done].
  - split; [done|]. split; [done|]. split; [by right | done].
Qed.

(** *** Outlet *)

Lemma Outlet_calls_cached (tree : list (element C)) (calls : list (list route)) :
  Outlet_calls registry calls (Some tree)
  = (map (fun _ => (Router false (Some tree), false)) calls, Some tree).
Proof.
  induction calls as [|router_routes later IH]; [done|].
  cbn [Outlet_calls Outlet not_set]. by rewrite IH.
Qed.

(** C9. Starting from the unset [memoizedOutlet], the first call of
    [Outlet] takes the branch that renders the tree from the routes it
    sees; every later call skips that branch and returns the very same
    tree, whatever routes the router holds by then. *)
Theorem Outlet_memoized (first : list route) (later : list (list route)) :
  Outlet_calls registry (first :: later) None
  = ( (Router false (Some (renderRoutes registry first)), true)
        :: map (fun _ => (Router false (Some (renderRoutes registry first)), false)) later,
      Some (renderRoutes registry first) ).
Proof.
  cbn [Outlet_calls Outlet not_set]. by rewrite Outlet_calls_cached.
Qed.

End Registry.

(** The own keys of a registry made from three requests. *)
Lemma routeComponentsMap_keys_witness :
  let context := {| keys := [ "./app.js"; "./docs/intro.mdx"; "./docs/intro.js" ];
                    require := fun key => {| default := Some key |} |} in
  (is_Some (routeComponentsMap context !! "./docs/intro") <->
   exists key, key ∈ keys context /\ keyWithoutExtension key = "./docs/intro") /\
  (is_Some (routeComponentsMap context !! "./docs/intro.mdx") <->
   exists key, key ∈ keys context /\ keyWithoutExtension key = "./docs/intro.mdx").
Proof.
  intros context.
  assert (forall key, key ∈ keys context -> starts_with "./" key = true) as Hkeys.
  { intros key Hin.
    repeat (apply elem_of_cons in Hin as [-> | Hin]; [reflexivity|]).
    destruct (proj1 (elem_of_nil key) Hin). }
  split.
  - exact (routeComponentsMap_keys context "./docs/intro" Hkeys).
  - exact (routeComponentsMap_keys context "./docs/intro.mdx" Hkeys).
Defined.

(** The lookup on a route whose page is registered and on one whose page
    is not. *)
Lemma renderRoutes_lookup_witness :
  let registry : gmap string (module string) :=
    {[ "./docs/getting-started/introduction" := {| default := Some "Introduction" |} ]} in
  let routes :=
    [ Route "docs.getting-started.introduction" "/introduction" [];
      Route "docs.missing" "/missing" [] ] in
  element_type <$> (renderRoutes registry routes !! 0) = Some (exported "Introduction") /\
  element_type <$> (renderRoutes registry routes !! 1) = Some EmptyComponent.
Proof.
  intros registry routes.
  destruct (proj2 (renderRoutes_lookup registry routes) 0
              (Route "docs.getting-started.introduction" "/introduction" [])
              "./docs/getting-started/introduction" eq_refl eq_refl)
    as (e & He & Hin & _).
  destruct (proj2 (renderRoutes_lookup registry routes) 1
              (Route "docs.missing" "/missing" []) "./docs/missing" eq_refl eq_refl)
    as (e' & He' & _ & Hout & _).
  split.
  - rewrite He. cbn. f_equal. apply (Hin {| default := Some "Introduction" |}).
    reflexivity.
  - rewrite He'. cbn. f_equal. apply Hout. reflexivity.
Defined.

(** The registry and the route tree on a small site. *)

Example keyWithoutExtension_of_a_page :
  keyWithoutExtension "./docs/getting-started/introduction.mdx"
  = "./docs/getting-started/introduction".
Proof. reflexivity. Qed.

Example keyWithoutExtension_without_dot : keyWithoutExtension "README" = "README".
Proof. reflexivity. Qed.

Example keyWithoutExtension_of_a_dot_file : keyWithoutExtension ".js" = ".js".
Proof. reflexivity. Qed.

Example registry_key_of_a_route :
  registry_key "docs.getting-started.introduction" = "./docs/getting-started/introduction".
Proof. reflexivity. Qed.

Example registry_of_three_files :
  let context := {| keys := [ "./app.js"; "./docs/getting-started/introduction.mdx";
                              "./examples.js" ];
                    require := fun key => {| default := Some key |} |} in
  routeComponentsMap context
  = {[ "./app" := {| default := Some "./app.js" |};
       "./docs/getting-started/introduction"
         := {| default := Some "./docs/getting-started/introduction.mdx" |};
       "./examples" := {| default := Some "./examples.js" |} ]}.
Proof. apply map_eq. intros k. vm_compute. reflexivity. Qed.

Example renderRoutes_of_a_small_tree :
  let registry : gmap string (module string) :=
    {[ "./docs/getting-started/introduction" := {| default := Some "Introduction" |};
       "./docs/broken" := {| default := None |} ]} in
  renderRoutes registry
    [ Route "docs" "/docs"
        [ Route "docs.getting-started" "/getting-started"
            [ Route "docs.getting-started.introduction" "/introduction" [] ];
          Route "docs.broken" "/broken" [] ] ]
  = [ Element EmptyComponent "/docs" "docs"
        [ Element EmptyComponent "/getting-started" "docs.getting-started"
            [ Element (exported "Introduction") "/introduction"
                "docs.getting-started.introduction" [] ];
          Element undefined "/broken" "docs.broken" [] ] ].
Proof. reflexivity. Qed.

Example Outlet_called_with_changing_routes :
  let registry : gmap string (module string) := ∅ in
  Outlet_calls registry [ [ Route "docs" "/docs" [] ]; []; [ Route "api" "/api" [] ] ] None
  = ( [ (Router false (Some [ Element EmptyComponent "/docs" "docs" [] ]), true);
        (Router false (Some [ Element EmptyComponent "/docs" "docs" [] ]), false);
        (Router false (Some [ Element EmptyComponent "/docs" "docs" [] ]), false) ],
      Some [ Element EmptyComponent "/docs" "docs" [] ] ).
Proof. reflexivity. Qed.

(** An empty route list still sets the cache: an array is truthy. *)
Example Outlet_first_called_without_routes :
  let registry : gmap string (module string) := ∅ in
  Outlet_calls registry [ []; [ Route "docs" "/docs" [] ] ] None
  = ( [ (Router false (Some []), true); (Router false (Some []), false) ], Some [] ).
Proof. reflexivity. Qed.

(** *** Header *)

(** C5. The state of [Header] is the one boolean [isShowingMobileNav],
    which starts as [false].  In every render the logo link is there and
    its click sets the state to [false].  The mobile nav button is there
    when [showHeaderNav] holds, and its click sets the state to its
    negation.  The mobile navigation is rendered exactly when the state
    is [true]; it then has its three links (to the guides, the API and
    GitHub), and a click on any of them sets the state to [false]. *)
Theorem Header_mobile_nav_state (showHeaderNav : bool) (th : theme)
    (isShowingMobileNav : bool) :
  useState_initial = false /\
  (* the logo link *)
  (to (logo (Header showHeaderNav th isShowingMobileNav)) = "/" /\
   link_onClick (logo (Header showHeaderNav th isShowingMobileNav))
   = Some (setIsShowingMobileNav false) /\
   click showHeaderNav th isShowingMobileNav on_logo = false) /\
  (* the mobile nav button *)
  (mobile_nav_button (Header showHeaderNav th isShowingMobileNav)
   = (if showHeaderNav
      then Some {| button_onClick := setIsShowingMobileNav (negb isShowingMobileNav);
                   button_icon := if isShowingMobileNav then Close else Menu |}
      else None) /\
   (showHeaderNav = true ->
    click showHeaderNav th isShowingMobileNav on_mobile_nav_button
    = negb isShowingMobileNav) /\
   (forall b, mobile_nav_button (Header showHeaderNav th isShowingMobileNav) = Some b ->
      click showHeaderNav th isShowingMobileNav on_mobile_nav_button
      = negb isShowingMobileNav)) /\
  (* the mobile navigation *)
  ((is_Some (mobile_nav (Header showHeaderNav th isShowingMobileNav))
    <-> isShowingMobileNav = true) /\
   (isShowingMobileNav = false ->
    mobile_nav (Header showHeaderNav th isShowingMobileNav) = None) /\
   (isShowingMobileNav = true ->
    exists links,
      mobile_nav (Header showHeaderNav th isShowingMobileNav) = Some links /\
      map to links = [ "/docs/getting-started/introduction"; "/api/classes/association";
                       "https://github.com/miragejs/server" ] /\
      map link_onClick links
      = [ Some (setIsShowingMobileNav false); Some (setIsShowingMobileNav false);
          Some (setIsShowingMobileNav false) ] /\
      forall i, i < length links ->
        click showHeaderNav th isShowingMobileNav (on_mobile_nav_link i) = false) /\
   (forall links (i : nat) (l : link),
      mobile_nav (Header showHeaderNav th isShowingMobileNav) = Some links ->
      links !! i = Some l ->
      link_onClick l = Some (setIsShowingMobileNav false) /\
      click showHeaderNav th isShowingMobileNav (on_mobile_nav_link i) = false)).
Proof.
  split; [reflexivity|]. split; [done|]. split; [|split; [|split; [|split]]].
  - split; [done|]. split.
    + intros ->. reflexivity.
    + intros b. unfold click. cbn. by destruct showHeaderNav.
  - cbn. destruct isShowingMobileNav; split; try done; try by eauto.
  - by intros ->.
  - intros ->. eexists. split; [reflexivity|]. split; [reflexivity|].
    split; [reflexivity|]. intros i Hi. cbn in Hi.
    destruct i as [|[|[|i]]]; try reflexivity. lia.
  - intros links i l. unfold click.
    destruct isShowingMobileNav; [|done].
    intros [= <-] Hl.
    destruct i as [|[|[|i]]]; cbn in Hl; [| | |done]; by injection Hl as <-.
Qed.

Example open_then_follow_a_link :
  clicks true dark [ on_mobile_nav_button ] = true /\
  clicks true dark [ on_mobile_nav_button; on_mobile_nav_link 1 ] = false /\
  clicks true dark [ on_mobile_nav_button; on_logo ] = false /\
  clicks false dark [ on_mobile_nav_button ] = false /\
  header_classes (Header true dark true) = [ "lg:py-2"; "bg-gray-900" ] /\
  header_classes (Header true light true) = [ "lg:py-2" ].
Proof. repeat split. Qed.

(** X20. With the button on screen, [n] clicks on it leave the navigation
    open exactly when [n] is odd. *)
Lemma clicks_on_button (th : theme) (n : nat) :
  clicks true th (repeat on_mobile_nav_button n) = Nat.odd n.
Proof.
  unfold clicks.
  assert (forall s, fold_left (click true th) (repeat on_mobile_nav_button n) s
                    = xorb s (Nat.odd n)) as H.
  { induction n as [|n IH]; intros s; [by destruct s|].
    cbn [repeat fold_left]. rewrite IH, Nat.odd_succ, <- Nat.negb_odd.
    unfold click. cbn. by destruct s, (Nat.odd n). }
  by rewrite H.
Qed.

End AppFacts.

(** * Further properties *)

(** ** gatsby-node.js: failures, logging, node ids *)

Module GatsbyNodeMore.
Import JS GatsbyNode StringFacts GatsbyNodeFacts.

Section Hooks.
Context {L : Type}.
Variable readFileSync : string -> completion string.
Variable tmp_dirSync : string.
Variable esdoc_generate : esdoc_config -> completion (string -> completion string).
Variable JSON_parse : string -> completion (list (gmap string json)).
Variable JSON_stringify : gmap string json -> string.
Variable createNodeId : string -> string.
Variable createContentDigest : string -> string.

(** X1. [onCreateNode] throws in two cases only, both on a ["File"] node:
    the node has no [absolutePath] (a [TypeError]), or the path contains
    [snippets] and reading the file throws (that error).  When it throws
    it has created no field. *)
Theorem onCreateNode_failures (node : graph_node) (e : error) :
  (outcome (onCreateNode (L:=L) readFileSync node) = Throw e <->
   type (node_internal node) = "File" /\
   ((absolutePath node = None /\ e = TypeError) \/
    exists p, absolutePath node = Some p /\ occurs_in "snippets" p /\
              readFileSync p = Throw e)) /\
  (outcome (onCreateNode (L:=L) readFileSync node) = Throw e ->
   calls (onCreateNode (L:=L) readFileSync node) = []).
Proof.
  unfold onCreateNode.
  destruct (String.eqb_spec (type (node_internal node)) "File") as [Hty|Hty].
  2:{ split; [|done]. split; [done | by intros [? _]]. }
  destruct (absolutePath node) as [p|] eqn:Hp.
  2:{ split; [|done]. split.
      - intros [= <-]. split; [done|]. by left.
      - intros [_ [[_ ->] | (p & Hp' & _)]]; [done | discriminate Hp']. }
  destruct (search_literal "snippets" p) eqn:Hs.
  - apply search_literal_spec in Hs. cbn. unfold and_then, lift. cbn.
    destruct (readFileSync p) as [text|e'] eqn:Hread; cbn.
    + split; [|done]. split; [done|].
      intros [_ [[Hnone _] | (p' & [= <-] & _ & Hthrow)]]; [done | congruence].
    + split; [|done]. split.
      * intros [= <-]. split; [done|]. right. by exists p.
      * intros [_ [[Hnone _] | (p' & [= <-] & _ & Hthrow)]]; [done | congruence].
  - split; [|done]. split; [done|].
    intros [_ [[Hnone _] | (p' & [= <-] & Hocc & _)]]; [done|].
    apply search_literal_spec in Hocc. congruence.
Qed.

(** The configuration the generator is run with: the caller's, with the
    temporary directory as [destination]. *)
Local Abbreviation generator_config :=
  {| source := source esdoc_options; excludes := excludes esdoc_options;
     plugins := plugins esdoc_options; destination := Some tmp_dirSync |}.

(** X2. Whichever step of [generateESDoc] fails (the generator itself,
    reading [index.json] from the temporary directory, or parsing it),
    [sourceNodes] ends with that error and has created no node and logged
    nothing. *)
Theorem sourceNodes_generator_failure (e : error) :
  (esdoc_generate generator_config = Throw e \/
   exists files, esdoc_generate generator_config = Normal files /\
     (files (tmp_dirSync ++ "/index.json") = Throw e \/
      exists index, files (tmp_dirSync ++ "/index.json") = Normal index /\
                    JSON_parse index = Throw e)) ->
  calls (sourceNodes (L:=L) tmp_dirSync esdoc_generate JSON_parse JSON_stringify
           createNodeId createContentDigest) = [] /\
  outcome (sourceNodes (L:=L) tmp_dirSync esdoc_generate JSON_parse JSON_stringify
             createNodeId createContentDigest) = Throw e.
Proof.
  intros Hfail.
  assert (generateESDoc tmp_dirSync esdoc_generate JSON_parse esdoc_options = Throw e)
    as Hgen.
  { unfold generateESDoc.
    destruct Hfail as [-> | (files & -> & [Hidx | (index & Hidx & Hparse)])].
    - done.
    - cbn [mbind completion_bind]. by rewrite Hidx.
    - cbn [mbind completion_bind]. rewrite Hidx. cbn [mbind completion_bind].
      by rewrite Hparse. }
  unfold sourceNodes. cbn. unfold and_then, lift. cbn. by rewrite Hgen.
Qed.

(** The calls [sourceNodes] makes for one entry. *)
Local Abbreviation entry_calls :=
  (fun node : gmap string json =>
     createNode (L:=L) (node_data JSON_stringify createNodeId createContentDigest node)
     :: (if public_class node
         then [ console_log "TODO create ssr page for" (node !! "name") ]
         else [])).

Lemma forEach_entry_calls (body : gmap string json -> run L unit)
    (docNodes : list (gmap string json)) :
  (forall node, calls (body node) = entry_calls node /\ outcome (body node) = Normal tt) ->
  calls (forEach body docNodes) = concat (map entry_calls docNodes) /\
  outcome (forEach body docNodes) = Normal tt.
Proof.
  intros Hbody. induction docNodes as [|node rest [IHc IHo]]; [done|].
  destruct (Hbody node) as [Hc Ho].
  change (forEach body (node :: rest)) with (and_then (body node) (fun _ => forEach body rest)).
  destruct (and_then_normal (body node) (fun _ => forEach body rest) tt Ho) as [-> ->].
  by rewrite Hc, IHc.
Qed.

Lemma console_logs_entry_calls (docNodes : list (gmap string json)) :
  console_logs (concat (map entry_calls docNodes))
  = map (fun node => node !! "name") (List.filter public_class docNodes).
Proof.
  induction docNodes as [|node rest IH]; [done|].
  cbn [map concat List.filter]. unfold console_logs in *.
  rewrite omap_app, IH. by destruct (public_class node).
Qed.

(** X3. When the generator yields [docNodes], the calls of [sourceNodes]
    are, entry by entry and in order, the [createNode] of the entry
    followed, for an entry of kind ["class"] and access ["public"] only,
    by one [console.log] of its name.  So the names logged are those of
    the public classes, in the generator's order. *)
Theorem sourceNodes_logs_public_classes (docNodes : list (gmap string json)) :
  generateESDoc tmp_dirSync esdoc_generate JSON_parse esdoc_options = Normal docNodes ->
  calls (sourceNodes (L:=L) tmp_dirSync esdoc_generate JSON_parse JSON_stringify
           createNodeId createContentDigest)
    = concat (map entry_calls docNodes) /\
  console_logs
    (calls (sourceNodes (L:=L) tmp_dirSync esdoc_generate JSON_parse JSON_stringify
              createNodeId createContentDigest))
    = map (fun node => node !! "name") (List.filter public_class docNodes).
Proof.
  intros Hgen.
  assert (calls (sourceNodes (L:=L) tmp_dirSync esdoc_generate JSON_parse JSON_stringify
                   createNodeId createContentDigest)
          = concat (map entry_calls docNodes)) as Hcalls.
  { rewrite sourceNodes_unfold, Hgen. unfold and_then, lift. cbn [outcome calls app].
    apply forEach_entry_calls. intros node. cbn. unfold and_then. cbn.
    unfold public_class. by destruct (_ && _). }
  split; [exact Hcalls|]. rewrite Hcalls. apply console_logs_entry_calls.
Qed.

(** X4. The id of a node depends on the entry's [__docId__] alone:
    entries with the same [__docId__], or both without one, get the same
    id.  When [createNodeId] is injective, entries whose [__docId__]s are
    different safe integers (numbers that JSON.parse holds exactly and
    that print in plain decimal) get different ids. *)
Theorem node_ids_follow_docId (e1 e2 : gmap string json) :
  Inj (=) (=) createNodeId ->
  (e1 !! "__docId__" = e2 !! "__docId__" ->
   node_data JSON_stringify createNodeId createContentDigest e1 !! "id"
   = node_data JSON_stringify createNodeId createContentDigest e2 !! "id") /\
  (forall n1 n2 : Z,
     safe_integer n1 -> safe_integer n2 ->
     e1 !! "__docId__" = Some (JNum n1) -> e2 !! "__docId__" = Some (JNum n2) ->
     n1 <> n2 ->
     node_data JSON_stringify createNodeId createContentDigest e1 !! "id"
     = Some (of_id (createNodeId ("esdoc-" ++ pretty n1))) /\
     node_data JSON_stringify createNodeId createContentDigest e2 !! "id"
     = Some (of_id (createNodeId ("esdoc-" ++ pretty n2))) /\
     node_data JSON_stringify createNodeId createContentDigest e1 !! "id"
     <> node_data JSON_stringify createNodeId createContentDigest e2 !! "id").
Proof.
  intros Hinj. unfold node_data.
  rewrite !(lookup_insert_ne _ "internal" "id") by done. rewrite !lookup_insert_eq.
  split.
  - by intros ->.
  - intros n1 n2 _ _ -> -> Hne. split; [done|]. split; [done|].
    intros [= Heq]. apply Hinj in Heq. cbn in Heq.
    apply Hne. apply (inj pretty).
    cbv [String.append] in Heq. by injection Heq.
Qed.

End Hooks.

Lemma sourceNodes_generator_failure_witness :
  let generate := fun _ : esdoc_config =>
    Normal (fun _ : string => Normal (A:=string) "not json") in
  let parse := fun _ : string => Throw (A:=list (gmap string json)) SyntaxError in
  let stringify := fun _ : gmap string json => "json" in
  let same := fun s : string => s in
  calls (sourceNodes (L:=unit) "/tmp/esdoc" generate parse stringify same same) = [] /\
  outcome (sourceNodes (L:=unit) "/tmp/esdoc" generate parse stringify same same)
    = Throw SyntaxError.
Proof.
  intros generate parse stringify same.
  apply (sourceNodes_generator_failure (L:=unit) "/tmp/esdoc" generate parse stringify
           same same SyntaxError).
  right. exists (fun _ : string => Normal "not json"). split; [reflexivity|].
  right. exists "not json". split; reflexivity.
Defined.

Lemma sourceNodes_logs_public_classes_witness :
  let server : gmap string json :=
    {[ "__docId__" := JNum 1; "kind" := JStr "class"; "access" := JStr "public";
       "name" := JStr "Server" ]} in
  let helper : gmap string json :=
    {[ "__docId__" := JNum 2; "kind" := JStr "function"; "access" := JStr "public";
       "name" := JStr "camelize" ]} in
  let hidden : gmap string json :=
    {[ "__docId__" := JNum 3; "kind" := JStr "class"; "access" := JStr "private";
       "name" := JStr "Container" ]} in
  let generate := fun _ : esdoc_config =>
    Normal (fun _ : string => Normal (A:=string) "index") in
  let parse := fun _ : string => Normal [ server; helper; hidden ] in
  let stringify := fun _ : gmap string json => "json" in
  let same := fun s : string => s in
  console_logs
    (calls (sourceNodes (L:=unit) "/tmp/esdoc" generate parse stringify same same))
  = [ Some (JStr "Server") ].
Proof.
  intros server helper hidden generate parse stringify same.
  refine (proj2 (sourceNodes_logs_public_classes (L:=unit) "/tmp/esdoc" generate parse
                   stringify same same [ server; helper; hidden ] _)).
  reflexivity.
Defined.

Lemma node_ids_follow_docId_witness :
  let same := fun s : string => s in
  let stringify := fun _ : gmap string json => "json" in
  let e1 : gmap string json := {[ "__docId__" := JNum 1; "name" := JStr "Server" ]} in
  let e2 : gmap string json := {[ "__docId__" := JNum 2; "name" := JStr "Server" ]} in
  node_data stringify same same e1 !! "id" <> node_data stringify same same e2 !! "id".
Proof.
  intros same stringify e1 e2.
  assert (Inj (=) (=) same) as Hinj by (intros x y H; exact H).
  apply (proj2 (node_ids_follow_docId stringify same same e1 e2 Hinj) 1%Z 2%Z).
  - unfold safe_integer. lia.
  - unfold safe_integer. lia.
  - reflexivity.
  - reflexivity.
  - discriminate.
Defined.

End GatsbyNodeMore.

(** ** src/routes/examples.js: the literal, rejected nodes, failures *)

Module ExamplesMore.
Import JS Examples StringFacts ExamplesFacts.

(** X5. What [/(\/examples\/.+)\.md[x]?/] captures in a path.  The
    matcher returns [group1] exactly when [group1] is [/examples/] and a
    text [t] such that the path reads [before], [/examples/], [t], [.md],
    [after], with [t] non-empty and free of line terminators (line feed,
    carriage return, U+2028, U+2029), no match of the literal starts
    further left, and none starting there has a longer [t]. *)
Theorem exec_examples_md_captures (file group1 : string) :
  exec_examples_md file = Some group1 <-> captures file group1.
Proof.
  split.
  - intros Hexec. by apply exec_examples_md_leftmost_greedy.
  - apply captures_exec.
Qed.

(** The capture on a path with two [.md]s, and on paths with a line or
    paragraph separator where [.+] would have to pass. *)
Example exec_on_paths_with_separators :
  exec_examples_md "/site/examples/vue/todo.md.mdx" = Some "/examples/vue/todo.md" /\
  exec_examples_md ("/examples/a" ++ line_separator ++ ".md") = None /\
  exec_examples_md ("/examples/a" ++ paragraph_separator ++ "b.md") = None /\
  exec_examples_md ("/examples/a.md" ++ line_separator ++ "b.md") = Some "/examples/a" /\
  exec_examples_md ("/examples/" ++ String "226" (String "128" (String "166" ".md")))
  = Some ("/examples/" ++ String "226" (String "128" (String "166" ""))).
Proof. repeat split. Qed.

(** X6. The literal [/(\/examples\/.+)\.md[x]?/] fails on a path exactly when the path cannot be read
    as some text, [/examples/], a non-empty text without line
    terminators, [.md], and a rest. *)
Theorem examples_md_no_match (file : string) :
  exec_examples_md file = None <->
  forall before t after, ~ examples_md_at file before t after.
Proof.
  split.
  - intros Hnone before t after Hat.
    destruct (exec_examples_md_complete _ _ _ _ Hat) as [g Hg]. congruence.
  - intros Hno. destruct (exec_examples_md file) as [g|] eqn:Hexec; [|done].
    destruct (exec_examples_md_sound _ _ Hexec) as (before & t & after & _ & Hat).
    by destruct (Hno before t after).
Qed.

Section DocsPage.
Context {regexp : Type}.
Variable RegExp : string -> completion regexp.
Variable test : regexp -> string -> bool.
Context {R P K : Type}.
Variable routerFor : string -> docs_router R P.

(** X7. A node whose path does not contain [/examples/] is rejected
    whatever the pathname and the engine, without an expression being
    compiled for it, and is never the node the lookup returns. *)
Theorem mdxPage_skips_other_directories (nodes : list mdx_node) (pathname : string)
    (node : mdx_node) (file : string) :
  fileAbsolutePath node = Some file ->
  ~ occurs_in "/examples/" file ->
  exec_examples_md file = None /\
  didMatch RegExp test pathname node = Normal false /\
  mdxPage RegExp test nodes pathname <> Normal (Some node).
Proof.
  intros Hfile Hno.
  assert (exec_examples_md file = None) as Hexec.
  { destruct (exec_examples_md file) as [g|] eqn:Hexec; [|done].
    destruct (exec_examples_md_sound _ _ Hexec) as (before & t & after & _ & -> & _).
    destruct Hno. by exists before, (t ++ ".md" ++ after). }
  assert (didMatch RegExp test pathname node = Normal false) as Hrej.
  { unfold didMatch. by rewrite Hfile, Hexec. }
  split; [done|]. split; [done|].
  unfold mdxPage. intros Hsel. apply find_Normal_Some in Hsel as (i & _ & Hacc & _).
  congruence.
Qed.

(** X8. The lookup stops at the first node that is not rejected.  When
    that node makes the callback throw (it has no [fileAbsolutePath], a
    [TypeError]; or compiling its captured subpath throws), the lookup
    and [DocsPage] end with that error, whatever nodes come after. *)
Theorem mdxPage_failure (props : props K) (before : list mdx_node) (node : mdx_node)
    (after : list mdx_node) (e : error) :
  Forall (rejects RegExp test (location_pathname props)) before ->
  (fileAbsolutePath node = None /\ e = TypeError) \/
  (exists file group1,
     fileAbsolutePath node = Some file /\ exec_examples_md file = Some group1 /\
     RegExp (group1 ++ "/?") = Throw e) ->
  mdxPage RegExp test (before ++ node :: after) (location_pathname props) = Throw e /\
  DocsPage RegExp test routerFor (before ++ node :: after) props = Throw e.
Proof.
  intros Hbefore Hnode.
  assert (didMatch RegExp test (location_pathname props) node = Throw e) as Hthrow.
  { unfold didMatch.
    destruct Hnode as [[-> ->] | (file & group1 & -> & -> & Hre)]; [done|].
    cbn. by rewrite Hre. }
  assert (mdxPage RegExp test (before ++ node :: after) (location_pathname props)
          = Throw e) as Hpage.
  { unfold mdxPage. induction Hbefore as [|earlier before Hrej _ IH]; simpl.
    - by rewrite Hthrow.
    - apply didMatch_false in Hrej. by rewrite Hrej. }
  split; [exact Hpage|]. unfold DocsPage. by rewrite Hpage.
Qed.

End DocsPage.

Lemma mdxPage_skips_other_directories_witness :
  let RegExp := fun source : string => Normal source in
  let test := fun re pathname : string => true in
  let guide := {| tableOfContents := {| items := None |};
                  fileAbsolutePath := Some "/site/src/routes/docs/intro.mdx" |} in
  exec_examples_md "/site/src/routes/docs/intro.mdx" = None /\
  didMatch RegExp test "/docs/intro" guide = Normal false /\
  mdxPage RegExp test [ guide ] "/docs/intro" <> Normal (Some guide).
Proof.
  intros RegExp test guide.
  apply (mdxPage_skips_other_directories RegExp test [ guide ] "/docs/intro" guide
           "/site/src/routes/docs/intro.mdx").
  - reflexivity.
  - intros Hocc. apply search_literal_spec in Hocc. discriminate Hocc.
Defined.

(** An engine that refuses a source with a parenthesis in it; the file
    name [a(b.mdx] gives such a source. *)
Lemma mdxPage_failure_witness :
  let RegExp := fun source : string =>
    if search_literal "(" source then Throw SyntaxError else Normal source in
  let test := fun re pathname : string =>
    search_literal (String.substring 0 (String.length re - 2) re) pathname in
  let page := fun file : string =>
    {| tableOfContents := {| items := None |}; fileAbsolutePath := Some file |} in
  let routerFor := fun prefix : string =>
    {| routes := prefix; previousPage := (None : option string);
       nextPage := (None : option string) |} in
  let props := {| location_pathname := "/examples/react"; children := tt |} in
  let nodes := ([ page "/site/src/routes/docs/intro.mdx" ]
                  ++ page "/site/src/routes/examples/a(b.mdx"
                  :: [ page "/site/src/routes/examples/react.mdx" ])%list in
  mdxPage RegExp test nodes (location_pathname props) = Throw SyntaxError /\
  DocsPage RegExp test routerFor nodes props = Throw SyntaxError.
Proof.
  intros RegExp test page routerFor props nodes.
  apply (mdxPage_failure RegExp test routerFor props).
  - constructor; [|constructor].
    exists "/site/src/routes/docs/intro.mdx". split; [reflexivity|]. left. reflexivity.
  - right. exists "/site/src/routes/examples/a(b.mdx", "/examples/a(b".
    split; [reflexivity|]. split; reflexivity.
Defined.

End ExamplesMore.

(** ** src/routes/app.js: registry keys, route trees, header *)

Module AppMore.
Import JS App StringFacts AppFacts.

(** *** Dots in strings *)

Lemma occurs_in_dot_cons (c : ascii) (s : string) :
  occurs_in "." (String c s) <-> c = "."%char \/ occurs_in "." s.
Proof.
  split.
  - intros (before & after & H). destruct before as [|b before].
    + left. by injection H.
    + right. injection H as _ ->. by exists before, after.
  - intros [-> | (before & after & ->)].
    + by exists "", s.
    + by exists (String c before), after.
Qed.

Lemma no_dot_in_empty : ~ occurs_in "." "".
Proof. intros (before & after & H). destruct before; discriminate H. Qed.

Lemma lastIndexOf_dot_lower (s : string) : (-1 <= lastIndexOf_dot s)%Z.
Proof.
  induction s as [|c s IH]; cbn [lastIndexOf_dot]; [lia|].
  destruct (Z.leb_spec 0 (lastIndexOf_dot s)); [lia|].
  destruct (Ascii.eqb c "."); lia.
Qed.

(** [lastIndexOf] answers [-1] exactly on a string without a dot. *)
Lemma lastIndexOf_dot_none (s : string) :
  lastIndexOf_dot s = (-1)%Z <-> ~ occurs_in "." s.
Proof.
  induction s as [|c s IH]; cbn [lastIndexOf_dot].
  - split; [intros _; apply no_dot_in_empty | done].
  - rewrite occurs_in_dot_cons. pose proof (lastIndexOf_dot_lower s) as Hlow.
    destruct (Z.leb_spec 0 (lastIndexOf_dot s)) as [Hge|Hlt].
    + split; [lia|]. intros Hno. assert (lastIndexOf_dot s = (-1)%Z); [|lia].
      apply IH. tauto.
    + assert (lastIndexOf_dot s = (-1)%Z) as Hs by lia. apply IH in Hs.
      destruct (Ascii.eqb_spec c ".") as [->|Hc]; [split; [lia | tauto]|].
      split; [tauto | done].
Qed.

(** On [stem.ext] with a dot-free [ext], it answers the length of [stem]. *)
Lemma lastIndexOf_dot_ext (stem ext : string) :
  ~ occurs_in "." ext ->
  lastIndexOf_dot (stem ++ "." ++ ext) = Z.of_nat (String.length stem).
Proof.
  intros Hext. apply lastIndexOf_dot_none in Hext.
  induction stem as [|c stem IH].
  - change ("" ++ "." ++ ext) with (String "." ext). cbn [lastIndexOf_dot].
    rewrite Hext. done.
  - change (String c stem ++ "." ++ ext) with (String c (stem ++ "." ++ ext)).
    cbn [lastIndexOf_dot String.length]. rewrite IH.
    destruct (Z.leb_spec 0 (Z.of_nat (String.length stem))); lia.
Qed.

Lemma substring_prefix (stem rest : string) :
  String.substring 0 (String.length stem) (stem ++ rest) = stem.
Proof.
  induction stem as [|c stem IH].
  - by destruct rest.
  - change (String c stem ++ rest) with (String c (stem ++ rest)).
    cbn [String.length String.substring]. by rewrite IH.
Qed.

(** A string with a dot splits at its last dot. *)
Lemma last_dot_split (s : string) :
  occurs_in "." s ->
  exists stem ext, s = stem ++ "." ++ ext /\ ~ occurs_in "." ext.
Proof.
  induction s as [|c s IH]; [intros H; by destruct no_dot_in_empty|].
  rewrite occurs_in_dot_cons.
  destruct (lastIndexOf_dot s =? -1)%Z eqn:Hs.
  - apply Z.eqb_eq, lastIndexOf_dot_none in Hs.
    intros [-> | Hocc]; [by exists "", s | done].
  - apply Z.eqb_neq in Hs. intros _.
    assert (occurs_in "." s) as Hocc.
    { destruct (lastIndexOf_dot_none s) as [_ Hback].
      destruct (search_literal "." s) eqn:Hsearch.
      - by apply search_literal_spec.
      - destruct Hs. apply Hback. intros Hocc. apply search_literal_spec in Hocc.
        congruence. }
    destruct (IH Hocc) as (stem & ext & -> & Hext). by exists (String c stem), ext.
Qed.

(** What [keyWithoutExtension] does at the last dot. *)
Lemma keyWithoutExtension_at_last_dot (stem ext : string) :
  ~ occurs_in "." ext ->
  keyWithoutExtension (stem ++ "." ++ ext) = or_else stem (stem ++ "." ++ ext).
Proof.
  intros Hext. unfold keyWithoutExtension, substr0.
  by rewrite lastIndexOf_dot_ext, Nat2Z.id, substring_prefix.
Qed.

(** X10. [keyWithoutExtension] cuts a key at its last dot: on
    [stem.ext], with [stem] not empty and no dot in [ext], it gives
    [stem]. *)
Theorem keyWithoutExtension_cuts_extension (stem ext : string) :
  stem <> "" -> ~ occurs_in "." ext ->
  keyWithoutExtension (stem ++ "." ++ ext) = stem.
Proof.
  intros Hstem Hext. rewrite keyWithoutExtension_at_last_dot by done.
  by destruct stem.
Qed.

Lemma keyWithoutExtension_cuts_extension_witness :
  keyWithoutExtension ("./docs/advanced/customizing-inflections" ++ "." ++ "mdx")
  = "./docs/advanced/customizing-inflections".
Proof.
  apply keyWithoutExtension_cuts_extension; [discriminate|].
  apply lastIndexOf_dot_none. reflexivity.
Defined.

(** X11. [keyWithoutExtension] gives the key back unchanged in two cases
    and no other: the key has no dot, or its only dot is its first
    character (cutting there would leave the empty string, and [||] puts
    the key back). *)
Theorem keyWithoutExtension_unchanged (key : string) :
  keyWithoutExtension key = key <->
  ~ occurs_in "." key \/ exists rest, key = "." ++ rest /\ ~ occurs_in "." rest.
Proof.
  split.
  - intros Hsame.
    destruct (search_literal "." key) eqn:Hsearch.
    + apply search_literal_spec in Hsearch.
      destruct (last_dot_split key Hsearch) as (stem & ext & -> & Hext).
      right. destruct stem as [|c stem]; [by exists ext|].
      rewrite keyWithoutExtension_at_last_dot in Hsame by done. cbn [or_else] in Hsame.
      apply (f_equal String.length) in Hsame. rewrite !length_append in Hsame.
      cbn [String.length] in Hsame. lia.
    + left. intros Hocc. apply search_literal_spec in Hocc. congruence.
  - intros [Hno | (rest & -> & Hrest)].
    + apply lastIndexOf_dot_none in Hno. unfold keyWithoutExtension, substr0.
      rewrite Hno. by destruct key.
    + apply (keyWithoutExtension_at_last_dot "" rest Hrest).
Qed.

(** *** The registry *)

Lemma dot_slash_not_inherited (k : string) :
  starts_with "./" k = true -> k ∉ Object_prototype.
Proof.
  intros Hk. apply starts_with_spec in Hk as [rest ->].
  unfold Object_prototype. intros H.
  repeat (apply elem_of_cons in H as [H|H]; [discriminate H|]).
  by apply elem_of_nil in H.
Qed.

Lemma keyWithoutExtension_dot_slash (key : string) :
  starts_with "./" key = true -> starts_with "./" (keyWithoutExtension key) = true.
Proof.
  intros Hkey. apply starts_with_spec in Hkey as [rest ->].
  destruct (search_literal "." rest) eqn:Hsearch.
  - apply search_literal_spec in Hsearch.
    destruct (last_dot_split rest Hsearch) as (stem & ext & -> & Hext).
    change ("./" ++ stem ++ "." ++ ext) with (("./" ++ stem) ++ "." ++ ext).
    rewrite keyWithoutExtension_at_last_dot by done.
    apply starts_with_spec. by exists stem.
  - assert (~ occurs_in "." (String "/" rest)) as Hno.
    { rewrite occurs_in_dot_cons. intros [Hc | Hocc]; [discriminate Hc|].
      apply search_literal_spec in Hocc. congruence. }
    change ("./" ++ rest) with ("" ++ "." ++ String "/" rest).
    rewrite keyWithoutExtension_at_last_dot by done.
    apply starts_with_spec. by exists rest.
Qed.

Section Registry.
Context {C : Type}.

(** X13. Requests of a context begin with [./]; then so does every own
    key of the registry, none of them is a name [Object.prototype] has,
    and reading such a key gives the registered module, never an
    inherited property. *)
Theorem routeComponentsMap_own_keys (r : require_context C) (k : string) (m : module C) :
  (forall key, key ∈ keys r -> starts_with "./" key = true) ->
  routeComponentsMap r !! k = Some m ->
  starts_with "./" k = true /\ (k ∉ Object_prototype) /\
  get (routeComponentsMap r) k = Some (own m).
Proof.
  intros Hkeys Hk.
  destruct (routeComponentsMap_lookup r k m Hk) as (key & Hin & <- & _).
  pose proof (keyWithoutExtension_dot_slash key (Hkeys key Hin)) as Hstart.
  split; [done|]. split; [by apply dot_slash_not_inherited|].
  unfold get. by rewrite Hk.
Qed.

Lemma importAll_last (req : string -> module C) (before after : list string)
    (key : string) (m0 : gmap string (module C)) :
  (forall k, k ∈ after -> keyWithoutExtension k <> keyWithoutExtension key) ->
  (importAll {| keys := before ++ key :: after; require := req |} m0)
    !! keyWithoutExtension key = Some (req key).
Proof.
  induction after as [|k after IH] using rev_ind; intros Hafter.
  - rewrite importAll_snoc. apply lookup_insert_eq.
  - replace (before ++ key :: after ++ [k])%list
      with ((before ++ key :: after) ++ [k])%list by by rewrite <- app_assoc.
    rewrite importAll_snoc, lookup_insert_ne.
    + apply IH. intros k' Hin. apply Hafter. apply elem_of_app. by left.
    + apply Hafter. apply elem_of_app. right. by apply list_elem_of_singleton.
Qed.

(** X14. From a page file to its route.  When the context has the
    request [./a/b.ext] (dots of the route name [a.b] turned into
    slashes, [ext] without a dot), and no later request is cut to the
    same key, the route named [a.b] is rendered with the default export
    of that file's module.  Of two files that are cut to the same key the
    later one is the one rendered. *)
Theorem page_file_renders_its_route (r : require_context C) (name ext : string)
    (before after : list string) :
  keys r = (before ++ ("./" ++ replace_dots name ++ "." ++ ext)%string :: after)%list ->
  ~ occurs_in "." ext ->
  (forall k, k ∈ after -> keyWithoutExtension k <> registry_key name) ->
  Component_for (routeComponentsMap r) name
  = match default (require r ("./" ++ replace_dots name ++ "." ++ ext)) with
    | Some c => exported c
    | None => undefined
    end.
Proof.
  intros Hkeys Hext Hafter. destruct r as [ks req]. cbn [keys require] in *. subst ks.
  assert (keyWithoutExtension ("./" ++ replace_dots name ++ "." ++ ext)
          = registry_key name) as Hcut.
  { change ("./" ++ replace_dots name ++ "." ++ ext)
      with (("./" ++ replace_dots name) ++ "." ++ ext).
    by rewrite keyWithoutExtension_at_last_dot. }
  rewrite Component_for_cases. unfold routeComponentsMap.
  rewrite <- Hcut, importAll_last; [done|].
  intros k Hin. rewrite Hcut. by apply Hafter.
Qed.

Lemma replace_dots_no_dot (s : string) : ~ occurs_in "." (replace_dots s).
Proof.
  induction s as [|c s IH]; cbn [replace_dots]; [apply no_dot_in_empty|].
  rewrite occurs_in_dot_cons. intros [Hc | Hocc]; [|done].
  destruct (Ascii.eqb_spec c "."); [discriminate Hc | done].
Qed.

(** X15. A module registered under a key that has a dot after the
    leading [./] (a file such as [./docs/v1.2/intro.mdx]) is rendered for
    no route: the lookup key of a route never has a dot there, so taking
    the module out of the registry changes no component. *)
Theorem dotted_key_is_unreachable (registry : gmap string (module C))
    (stem name : string) :
  occurs_in "." stem ->
  registry_key name <> "./" ++ stem /\
  Component_for (delete ("./" ++ stem) registry) name = Component_for registry name.
Proof.
  intros Hdot.
  assert (registry_key name <> "./" ++ stem) as Hne.
  { unfold registry_key. intros Heq.
    change (String "." (String "/" (replace_dots name)) = String "." (String "/" stem))
      in Heq.
    injection Heq as Heq. rewrite <- Heq in Hdot.
    by apply replace_dots_no_dot in Hdot. }
  split; [done|]. rewrite !Component_for_cases. by rewrite lookup_delete_ne.
Qed.

(** *** Route trees *)

Lemma route_nested_ind (Q : route -> Prop) :
  (forall name path sub, Forall Q sub -> Q (Route name path sub)) ->
  forall r, Q r.
Proof.
  intros Hstep. fix IH 1. intros [name path sub]. apply Hstep.
  induction sub as [|r sub IHsub]; constructor; [apply IH | exact IHsub].
Qed.

Lemma element_route_renderRoute (registry : gmap string (module C)) (r : route) :
  element_route (renderRoute registry r) = r.
Proof.
  induction r as [name path sub IH] using route_nested_ind.
  cbn [renderRoute element_route]. f_equal.
  induction IH as [|r sub Hr _ IHsub]; [done|]. cbn [map]. by rewrite Hr, IHsub.
Qed.

(** X16. [renderRoutes] keeps the tree: read back through the [key] and
    [path] props, the rendered elements are the routes they were made
    from, with all sub-routes, in the same order.  No route is dropped,
    added or moved, whatever the registry holds. *)
Theorem renderRoutes_keeps_the_tree (registry : gmap string (module C))
    (routes : list route) :
  map element_route (renderRoutes registry routes) = routes.
Proof.
  unfold renderRoutes. induction routes as [|r routes IH]; [done|].
  cbn [map]. by rewrite element_route_renderRoute, IH.
Qed.

Lemma renderRoute_agree (registry registry' : gmap string (module C)) (r : route) :
  (forall name, name ∈ route_names r ->
     registry !! registry_key name = registry' !! registry_key name) ->
  renderRoute registry r = renderRoute registry' r.
Proof.
  induction r as [name path sub IH] using route_nested_ind. intros Hagree.
  cbn [renderRoute]. f_equal.
  - rewrite !Component_for_cases, (Hagree name); [done|].
    cbn [route_names]. apply elem_of_cons. by left.
  - assert (forall n, n ∈ concat (map route_names sub) ->
              registry !! registry_key n = registry' !! registry_key n) as Hsub.
    { intros n Hn. apply Hagree. cbn [route_names]. apply elem_of_cons. by right. }
    clear Hagree. induction IH as [|r sub Hr _ IHsub]; [done|]. cbn [map]. f_equal.
    + apply Hr. intros n Hn. apply Hsub. cbn [map concat]. apply elem_of_app. by left.
    + apply IHsub. intros n Hn. apply Hsub. cbn [map concat]. apply elem_of_app.
      by right.
Qed.

(** X17. [renderRoutes] reads the registry at the keys of the names in
    the tree and nowhere else: two registries that agree on those keys
    give the same elements. *)
Theorem renderRoutes_reads_only_its_keys (registry registry' : gmap string (module C))
    (routes : list route) :
  (forall name, name ∈ concat (map route_names routes) ->
     registry !! registry_key name = registry' !! registry_key name) ->
  renderRoutes registry routes = renderRoutes registry' routes.
Proof.
  unfold renderRoutes. induction routes as [|r routes IH]; intros Hagree; [done|].
  cbn [map]. f_equal.
  - apply renderRoute_agree. intros n Hn. apply Hagree. cbn [map concat].
    apply elem_of_app. by left.
  - apply IH. intros n Hn. apply Hagree. cbn [map concat]. apply elem_of_app. by right.
Qed.

End Registry.

Lemma routeComponentsMap_own_keys_witness :
  let context := {| keys := [ "./app.js"; "./docs/intro.mdx" ];
                    require := fun key => {| default := Some key |} |} in
  starts_with "./" "./docs/intro" = true /\ ("./docs/intro" ∉ Object_prototype) /\
  get (routeComponentsMap context) "./docs/intro"
  = Some (own {| default := Some "./docs/intro.mdx" |}).
Proof.
  intros context.
  apply (routeComponentsMap_own_keys context "./docs/intro"
           {| default := Some "./docs/intro.mdx" |}).
  - intros key Hin.
    repeat (apply elem_of_cons in Hin as [-> | Hin]; [reflexivity|]).
    destruct (proj1 (elem_of_nil key) Hin).
  - reflexivity.
Defined.

Lemma page_file_renders_its_route_witness :
  let context := {| keys := [ "./docs/intro.js"; "./docs/intro.mdx"; "./app.js" ];
                    require := fun key => {| default := Some key |} |} in
  Component_for (routeComponentsMap context) "docs.intro" = exported "./docs/intro.mdx".
Proof.
  intros context.
  apply (page_file_renders_its_route context "docs.intro" "mdx"
           [ "./docs/intro.js" ] [ "./app.js" ]).
  - reflexivity.
  - apply lastIndexOf_dot_none. reflexivity.
  - intros k Hin. apply list_elem_of_singleton in Hin. subst k. discriminate.
Defined.

Lemma dotted_key_is_unreachable_witness :
  let registry : gmap string (module string) :=
    {[ "./docs/v1.2/intro" := {| default := Some "Intro" |} ]} in
  registry_key "docs.v1.2.intro" <> "./" ++ "docs/v1.2/intro" /\
  Component_for (delete ("./" ++ "docs/v1.2/intro") registry) "docs.v1.2.intro"
  = Component_for registry "docs.v1.2.intro".
Proof.
  intros registry.
  apply (dotted_key_is_unreachable registry "docs/v1.2/intro" "docs.v1.2.intro").
  exists "docs/v1", "2/intro". reflexivity.
Defined.

Lemma renderRoutes_reads_only_its_keys_witness :
  let registry : gmap string (module string) :=
    {[ "./docs" := {| default := Some "Docs" |} ]} in
  let registry' : gmap string (module string) :=
    {[ "./docs" := {| default := Some "Docs" |};
       "./api" := {| default := Some "Api" |} ]} in
  renderRoutes registry [ Route "docs" "/docs" [ Route "docs.intro" "/intro" [] ] ]
  = renderRoutes registry' [ Route "docs" "/docs" [ Route "docs.intro" "/intro" [] ] ].
Proof.
  intros registry registry'.
  apply (renderRoutes_reads_only_its_keys registry registry').
  intros name Hin.
  repeat (apply elem_of_cons in Hin as [-> | Hin]; [reflexivity|]).
  destruct (proj1 (elem_of_nil name) Hin).
Defined.

(** *** AppInner and Header *)

(** X18. [AppInner] hides the header navigation exactly when there is
    an active page whose [meta] sets [showHeaderNav] to a falsy value: then
    [Header] renders neither the mobile nav button nor the desktop links.
    Without an active page, or with a [meta] that leaves the flag out,
    the navigation is shown.  [AppInner] throws only for an active page
    without [meta]. *)
Theorem AppInner_showHeaderNav (th : theme) (activePage : option page) :
  (returns (AppInner th activePage) = false <->
   exists p, activePage = Some p /\ meta p = None) /\
  (forall view, AppInner th activePage = Normal view ->
     (header_showHeaderNav view = false <->
      exists p m, activePage = Some p /\ meta p = Some m /\
                  meta_showHeaderNav m = Some false) /\
     (forall isShowingMobileNav,
        (mobile_nav_button (Header (header_showHeaderNav view) th isShowingMobileNav)
           = None <-> header_showHeaderNav view = false) /\
        (desktop_nav (Header (header_showHeaderNav view) th isShowingMobileNav) = []
           <-> header_showHeaderNav view = false))).
Proof.
  unfold AppInner. destruct activePage as [[m]|]; [destruct m as [[flag]|]|].
  - destruct flag as [[|]|]; cbn.
    + split; [split; [done | by intros (p & [= <-] & Hm)]|].
      intros view [= <-]. cbn.
      split; [split; [done | by intros (p & m & [= <-] & [= <-] & ?)]|].
      intros s. by split.
    + split; [split; [done | by intros (p & [= <-] & Hm)]|].
      intros view [= <-]. cbn. split; [split; [intros _; eauto | done]|].
      intros s. by split.
    + split; [split; [done | by intros (p & [= <-] & Hm)]|].
      intros view [= <-]. cbn.
      split; [split; [done | by intros (p & m & [= <-] & [= <-] & ?)]|].
      intros s. by split.
  - cbn. split; [split; [intros _; eauto | done]|]. by intros view.
  - cbn. split; [split; [done | by intros (p & ? & _)]|].
    intros view [= <-]. cbn. split; [split; [done | by intros (p & m & ? & _)]|].
    intros s. by split.
Qed.

Lemma click_without_button (th : theme) (t : target) : click false th false t = false.
Proof. by destruct t. Qed.

(** X19. While [showHeaderNav] is false the mobile navigation cannot be
    opened: there is no button to open it, so after any clicks the state
    is still [false] and the list is not rendered. *)
Theorem mobile_nav_stays_closed_without_button (th : theme) (ts : list target) :
  clicks false th ts = false /\
  mobile_nav (Header false th (clicks false th ts)) = None.
Proof.
  assert (clicks false th ts = false) as Hclosed.
  { unfold clicks, useState_initial.
    induction ts as [|t ts IH]; [done|]. cbn [fold_left].
    by rewrite click_without_button. }
  split; [exact Hclosed|]. by rewrite Hclosed.
Qed.

(** X21. A click on the logo, or on one of the three links of the mobile
    navigation, leaves the navigation closed, whatever was clicked
    before. *)
Theorem closing_clicks (showHeaderNav : bool) (th : theme) (ts : list target)
    (t : target) :
  t = on_logo \/ (exists i, i < 3 /\ t = on_mobile_nav_link i) ->
  clicks showHeaderNav th (ts ++ [t]) = false.
Proof.
  intros Ht. unfold clicks. rewrite fold_left_app. cbn [fold_left].
  destruct (fold_left (click showHeaderNav th) ts useState_initial);
    destruct Ht as [-> | (i & Hi & ->)]; try done;
    destruct i as [|[|[|i]]]; try done; lia.
Qed.

Lemma closing_clicks_witness :
  clicks true dark ([ on_mobile_nav_button ] ++ [ on_mobile_nav_link 2 ]) = false.
Proof.
  apply closing_clicks. right. exists 2. split; [lia | reflexivity].
Defined.

(** *** MobileNavLink *)

Lemma indexOf_zero (lit s : string) :
  indexOf lit s = 0%Z <-> starts_with lit s = true.
Proof.
  destruct s as [|c s]; cbn [indexOf].
  - by destruct (starts_with lit "").
  - destruct (starts_with lit (String c s)); [done|].
    destruct (Z.ltb_spec (indexOf lit s) 0); split; (done || lia).
Qed.

(** X22. [MobileNavLink] renders a plain [a] element, with the target as
    [href] and the inactive class, exactly when the target begins with
    [http]; every other target gives a router [Link] whose class is the
    active one exactly when the location is partially current.  Either
    way the element gets the [onClick] and the children it was given. *)
Theorem MobileNavLink_external (th : theme) (props : link) :
  ((exists rest, to props = "http" ++ rest) ->
   MobileNavLink th props
   = a_element (to props) (link_onClick props)
       ("block px-5 py-4" ++ " " ++ linkClasses th inactive) (label props)) /\
  (~ (exists rest, to props = "http" ++ rest) ->
   exists getProps,
     MobileNavLink th props
     = Link_element (to props) (link_onClick props) getProps (label props) /\
     getProps true = "block px-5 py-4" ++ " " ++ linkClasses th active /\
     getProps false = "block px-5 py-4" ++ " " ++ linkClasses th inactive).
Proof.
  unfold MobileNavLink, isExternal.
  destruct (Z.eqb_spec (indexOf "http" (to props)) 0) as [Hzero|Hnonzero].
  - apply indexOf_zero, starts_with_spec in Hzero. split; [done|]. by intros Hno.
  - split.
    + intros Hext. destruct Hnonzero. by apply indexOf_zero, starts_with_spec.
    + intros _. by eexists.
Qed.

(** The three links of the open mobile navigation. *)
Example mobile_nav_elements :
  (links ← mobile_nav (Header true dark true); Some (map (MobileNavLink dark) links))
  = Some [ Link_element "/docs/getting-started/introduction"
        (Some (setIsShowingMobileNav false))
        (fun isPartiallyCurrent =>
           "block px-5 py-4" ++ " "
           ++ linkClasses dark (if isPartiallyCurrent then active else inactive))
        (text "Guides");
      Link_element "/api/classes/association" (Some (setIsShowingMobileNav false))
        (fun isPartiallyCurrent =>
           "block px-5 py-4" ++ " "
           ++ linkClasses dark (if isPartiallyCurrent then active else inactive))
        (text "API");
      a_element "https://github.com/miragejs/server" (Some (setIsShowingMobileNav false))
        "block px-5 py-4 text-gray-100 hover:text-gray-100" (text "GitHub") ].
Proof. reflexivity. Qed.

End AppMore.
